(** * Certificate PWA backend: a shallow embedding of [app.py]

    The development follows the source file top to bottom: Python string
    primitives used by the handlers, the process state (the global roster
    dictionary, the log, the generated files, the mail relay), the start-up
    roster load, certificate rendering, mail dispatch, the HTTP handlers and
    the admin aggregation.  Theorems come after all definitions. *)

From Stdlib Require Import ZArith QArith Ascii String List Bool Lia.
From Stdlib Require Uint63 PrimFloat.
From stdpp Require Import base option list gmap strings fin_maps.

Local Open Scope string_scope.
Local Open Scope Z_scope.

(** ** Python [str] primitives

    A Python string is a sequence of code points.  The embedding uses Rocq's
    [string], i.e. sequences of 8-bit characters, read as the code points
    U+0000 .. U+00FF; on that range the functions below are the ones of
    CPython. *)
Module PyStr.

Definition code (c : ascii) : N := N_of_ascii c.

(** [str.isspace] on one code point: U+0009..U+000D, U+001C..U+0020,
    U+0085 and U+00A0 are the white-space code points below U+0100. *)
Definition isspace (c : ascii) : bool :=
  let n := code c in
  ((9 <=? n) && (n <=? 13) || (28 <=? n) && (n <=? 32)
   || (n =? 133) || (n =? 160))%N.

(** [str.lower] on one code point: A..Z and the Latin-1 capitals
    U+00C0..U+00DE (without the multiplication sign U+00D7) move up by
    32; every other code point below U+0100 is its own lower case. *)
Definition lower_char (c : ascii) : ascii :=
  let n := code c in
  if ((65 <=? n) && (n <=? 90)
      || (192 <=? n) && (n <=? 222) && negb (n =? 215))%N
  then ascii_of_N (n + 32) else c.

(** [s.lower()] *)
Fixpoint lower (s : string) : string :=
  match s with
  | EmptyString => EmptyString
  | String c s' => String (lower_char c) (lower s')
  end.

(** [s.lstrip()] *)
Fixpoint lstrip (s : string) : string :=
  match s with
  | EmptyString => EmptyString
  | String c s' => if isspace c then lstrip s' else s
  end.

(** [s.rstrip()] *)
Fixpoint rstrip (s : string) : string :=
  match s with
  | EmptyString => EmptyString
  | String c s' =>
      match rstrip s' with
      | EmptyString => if isspace c then EmptyString else String c EmptyString
      | r => String c r
      end
  end.

(** [s.strip()]: white space is removed at both ends. *)
Definition strip (s : string) : string := rstrip (lstrip s).

(** [s.replace(old, new)] for a pattern [old] of length one: every
    occurrence of the character is replaced, left to right. *)
Fixpoint replace (old : ascii) (new : string) (s : string) : string :=
  match s with
  | EmptyString => EmptyString
  | String c s' =>
      if Ascii.eqb c old then new +:+ replace old new s'
      else String c (replace old new s')
  end.

(** [sub in s] *)
Fixpoint contains (sub s : string) : bool :=
  String.prefix sub s ||
  match s with
  | EmptyString => false
  | String _ s' => contains sub s'
  end.

(** Truth value of a string: [bool(s)]. *)
Definition truthy (s : string) : bool :=
  match s with EmptyString => false | _ => true end.

Definition space : ascii := " "%char.
Definition tab : ascii := "009"%char.

(** Predicates used to state facts about [strip]: no white space in
    front, resp. at the end. *)
Definition head_ok (s : string) : bool :=
  match s with
  | EmptyString => true
  | String c _ => negb (isspace c)
  end.

Fixpoint last_ok (s : string) : bool :=
  match s with
  | EmptyString => true
  | String c EmptyString => negb (isspace c)
  | String _ s' => last_ok s'
  end.

End PyStr.

(** The expression [x.strip().lower().replace(' ', '')], written out at
    every place that builds or consults the roster dictionary
    ([startup_event], [verify_email], [generate_certificate_endpoint],
    [send_certificate_endpoint], [get_all_feedback]). *)
Definition normalize (x : string) : string :=
  PyStr.replace PyStr.space EmptyString (PyStr.lower (PyStr.strip x)).

(** ** Exceptions, results and the process state *)

(** The exceptions the handlers distinguish: FastAPI's [HTTPException],
    which carries the response status, and every other [Exception]. *)
Inductive exn : Type :=
  | HTTPException (status_code : Z) (detail : string)
  | Exception (msg : string).

Inductive result (A : Type) : Type :=
  | Ok (a : A)
  | Raise (e : exn).
Arguments Ok {A} a.
Arguments Raise {A} e.

(** Decimal rendering of a status code, for [str(e)]. *)
Definition digit_char (d : Z) : ascii := ascii_of_N (48 + Z.to_N d).

Fixpoint digits (fuel : nat) (n : Z) (acc : string) : string :=
  match fuel with
  | O => acc
  | S fuel' =>
      let acc' := String (digit_char (n mod 10)) acc in
      if n / 10 =? 0 then acc' else digits fuel' (n / 10) acc'
  end.

Definition str_Z (n : Z) : string :=
  if n <? 0 then String "-"%char (digits (Z.to_nat (- n)) (- n) EmptyString)
  else digits (S (Z.to_nat n)) n EmptyString.

(** [str(e)]: Starlette renders an [HTTPException] as
    ["{status_code}: {detail}"]; other exceptions render their message. *)
Definition str_exn (e : exn) : string :=
  match e with
  | HTTPException sc d => str_Z sc +:+ ": " +:+ d
  | Exception m => m
  end.

Inductive level : Type := INFO | WARNING | ERROR.

(** A page description as the canvas builds it. *)
Inductive canvas_op : Type :=
  | DrawImage (path : string) (x y w h : Q)
  | SetFont (font_name : string) (size : Q)
  | SetFillColor (hex : string)
  | DrawString (x y : Q) (text : string).

Record document : Type := {
  pagesize : Q * Q;
  ops : list canvas_op
}.

(** The message handed to the mail relay and the connection arguments of
    [aiosmtplib.send]. *)
Record message : Type := {
  msg_from : string;
  msg_to : string;
  msg_subject : string;
  msg_body : string;
  att_subtype : string;
  att_filename : string;
  att_content : document
}.

Record smtp_call : Type := {
  smtp_msg : message;
  hostname : option string;
  port : Z;
  username : string;
  password : string;
  start_tls : bool
}.

(** What one process run can change: the global dictionary
    [EMAIL_TO_NAME], the log, the files under [GENERATED_DIR], and the
    calls made to the mail relay. *)
Record state : Type := {
  EMAIL_TO_NAME : gmap string string;
  log : list (level * string);
  files : gmap string document;
  smtp_calls : list smtp_call
}.

Definition initial_state : state :=
  {| EMAIL_TO_NAME := ∅; log := []; files := ∅; smtp_calls := [] |}.

(** Computations that read and write the state and may raise.  A raise
    keeps the state reached so far, as in Python. *)
Definition M (A : Type) : Type := state → result A * state.

Definition ret {A} (a : A) : M A := λ s, (Ok a, s).
Definition raise {A} (e : exn) : M A := λ s, (Raise e, s).
Definition bind {A B} (m : M A) (k : A → M B) : M B :=
  λ s, match m s with
       | (Ok a, s') => k a s'
       | (Raise e, s') => (Raise e, s')
       end.
(** [try: m  except Exception as e: h e] *)
Definition try_except {A} (m : M A) (h : exn → M A) : M A :=
  λ s, match m s with
       | (Ok a, s') => (Ok a, s')
       | (Raise e, s') => h e s'
       end.
(** Lifting the outcome of an external call. *)
Definition lift {A} (r : result A) : M A := λ s, (r, s).

Notation "'let!' x ':=' m 'in' k" := (bind m (λ x, k))
  (at level 10, x pattern, m at level 100, k at level 200) : stdpp_scope.
Notation "'do!' m 'in' k" := (bind m (λ _, k))
  (at level 10, m at level 100, k at level 200) : stdpp_scope.

Definition logger (l : level) (msg : string) : M unit :=
  λ s, (Ok tt, {| EMAIL_TO_NAME := EMAIL_TO_NAME s; log := log s ++ [(l, msg)];
                  files := files s; smtp_calls := smtp_calls s |}).

Definition get_index : M (gmap string string) := λ s, (Ok (EMAIL_TO_NAME s), s).

(** [EMAIL_TO_NAME[email] = name] *)
Definition set_index (email name : string) : M unit :=
  λ s, (Ok tt, {| EMAIL_TO_NAME := <[email := name]> (EMAIL_TO_NAME s);
                  log := log s; files := files s; smtp_calls := smtp_calls s |}).

Definition write_file (path : string) (d : document) : M unit :=
  λ s, (Ok tt, {| EMAIL_TO_NAME := EMAIL_TO_NAME s; log := log s;
                  files := <[path := d]> (files s); smtp_calls := smtp_calls s |}).

Definition read_file (path : string) : M document :=
  λ s, match files s !! path with
       | Some d => (Ok d, s)
       | None => (Raise (Exception ("No such file or directory: " +:+ path)), s)
       end.

Definition record_smtp (c : smtp_call) : M unit :=
  λ s, (Ok tt, {| EMAIL_TO_NAME := EMAIL_TO_NAME s; log := log s;
                  files := files s; smtp_calls := smtp_calls s ++ [c] |}).

(** ** The surroundings of the process *)

(** A cell of the roster table as [pd.read_csv] delivers it: missing
    ([pd.isna] holds), or a value given by its [str()] rendering, which
    is all the loader reads of it. *)
Inductive cell : Type :=
  | NaN
  | Val (s : string).

(** A data frame: the header labels as read from the file and the data
    rows, each with one cell per column. *)
Record DataFrame : Type := {
  columns : list string;
  rows : list (list cell)
}.

(** A feedback record as the external store returns it; a field is [None]
    when the JSON object lacks the key. *)
Record item : Type := {
  item_email : option string;
  item_rating : option Z
}.

(** Everything the code reads from outside and every external call it
    makes.  An external call that can raise is given by its outcome. *)
Record env : Type := {
  (** [os.getenv] / [os.environ.get] *)
  getenv : string → option string;
  (** [os.path.dirname(__file__)] *)
  app_dir : string;
  (** [None] when [CSV_PATH] does not exist, else the outcome of
      [pd.read_csv(CSV_PATH)] *)
  csv : option (result DataFrame);
  (** [str()] of the [Series] that [row[label]] yields when several
      columns carry the label *)
  series_str : list cell → string;
  (** [os.path.exists(TEMPLATE_PATH)] *)
  template_exists : bool;
  (** [ImageReader(TEMPLATE_PATH).getSize()] *)
  template_size : result (Z * Z);
  (** [c.drawImage(TEMPLATE_PATH, ...)] *)
  draw_image : result unit;
  (** [os.path.exists(font_path)] *)
  font_exists : bool;
  (** [pdfmetrics.registerFont(TTFont('Poppins-Bold', font_path))] *)
  register_font : result unit;
  (** [c.stringWidth(text, font_name, size)] *)
  stringWidth : string → string → Q → result Q;
  (** [c.save()] writing to the given path *)
  save : string → result unit;
  (** [aiosmtplib.send] *)
  smtp_send : smtp_call → result unit;
  (** The duplicate check of [verify_email]: status code and number of
      rows of the store's answer for one email *)
  feedback_query : string → result (Z * nat);
  (** [GET /rest/v1/feedback?select=*]: status code, body text, records *)
  feedback_all : result (Z * string * list item)
}.

(** ** Paths *)

Definition starts_with_slash (p : string) : bool :=
  match p with String "/" _ => true | _ => false end.

Fixpoint ends_with_slash (p : string) : bool :=
  match p with
  | EmptyString => false
  | String c EmptyString => Ascii.eqb c "/"
  | String _ p' => ends_with_slash p'
  end.

(** [os.path.join(a, b)] (POSIX) *)
Definition path_join (a b : string) : string :=
  if starts_with_slash b then b
  else if negb (PyStr.truthy a) || ends_with_slash a then a +:+ b
  else a +:+ "/" +:+ b.

(** [os.path.basename(p)]: what follows the last slash. *)
Fixpoint basename (p : string) : string :=
  match p with
  | EmptyString => EmptyString
  | String c p' =>
      if PyStr.contains "/" p then basename p' else p
  end.

Definition CSV_PATH (E : env) : string :=
  path_join (path_join (app_dir E) "data") "data.csv".
Definition TEMPLATE_PATH (E : env) : string :=
  path_join (path_join (app_dir E) "templates") "certificate_template.png".
Definition GENERATED_DIR (E : env) : string :=
  path_join (app_dir E) "generated".

(** ** The roster load at start-up *)

Definition str_cell (c : cell) : string :=
  match c with NaN => "nan" | Val s => s end.

(** [row[label]]: the cells of the row under the columns carrying the
    label.  One cell is a scalar; more than one is a [Series]. *)
Definition row_get (cols : list string) (row : list cell) (label : string)
  : list cell :=
  map snd (filter (λ p, p.1 = label) (zip cols row)).

(** [next((c for c in cols if sub in c.lower()), None)] *)
Definition find_col (sub : string) (cols : list string) : option string :=
  List.find (λ c, PyStr.contains sub (PyStr.lower c)) cols.

(** [str(row[name_col]).strip()] *)
Definition display_name (E : env) (cols : list string) (name_col : string)
  (row : list cell) : result string :=
  match row_get cols row name_col with
  | [] => Raise (Exception ("KeyError: " +:+ name_col))
  | [c] => Ok (PyStr.strip (str_cell c))
  | cs => Ok (PyStr.strip (series_str E cs))
  end.

(** One turn of the loop over [df.iterrows()].  [pd.isna(val)] of a
    [Series] is a [Series], whose truth value raises. *)
Definition load_row (E : env) (cols : list string) (email_col name_col : string)
  (row : list cell) : M unit :=
  match row_get cols row email_col with
  | [] => raise (Exception ("KeyError: " +:+ email_col))
  | [NaN] => ret tt
  | [Val v] =>
      let email := normalize v in
      let! name := lift (display_name E cols name_col row) in
      set_index email name
  | _ => raise (Exception "The truth value of a Series is ambiguous.")
  end.

Fixpoint for_each {A} (l : list A) (body : A → M unit) : M unit :=
  match l with
  | [] => ret tt
  | a :: l' => do! body a in for_each l' body
  end.

Definition startup_event (E : env) : M unit :=
  try_except
    (match csv E with
     | Some read =>
         let! df := lift read in
         let cols := map PyStr.strip (columns df) in
         let email_col := find_col "email" cols in
         let name_col := find_col "name" cols in
         match email_col, name_col with
         | Some ec, Some nc =>
             if PyStr.truthy ec && PyStr.truthy nc then
               do! for_each (rows df) (load_row E cols ec nc) in
               let! idx := get_index in
               logger INFO ("Loaded " +:+ str_Z (Z.of_nat (size idx)) +:+ " records.")
             else logger ERROR "Could not find Email/Name columns."
         | _, _ => logger ERROR "Could not find Email/Name columns."
         end
     | None => logger WARNING "CSV file not found."
     end)
    (λ e, logger ERROR ("Error loading CSV: " +:+ str_exn e)).

(** The dictionary write one row amounts to when its address cell is a
    present scalar: the pair of the normalised address and the display
    name.  Used to describe the outcome of the loop. *)
Definition row_entry (E : env) (cols : list string) (email_col name_col : string)
  (row : list cell) : option (string * string) :=
  match row_get cols row email_col, display_name E cols name_col row with
  | [Val v], Ok nm => Some (normalize v, nm)
  | _, _ => None
  end.

Definition write_entry (index : gmap string string) (e : option (string * string))
  : gmap string string :=
  match e with
  | Some (k, v) => <[k := v]> index
  | None => index
  end.

(** A row whose address cell reads as a scalar and whose name reads
    without error. *)
Definition readable (E : env) (cols : list string) (email_col name_col : string)
  (row : list cell) : Prop :=
  (∃ c, row_get cols row email_col = [c])
  ∧ ∃ nm, display_name E cols name_col row = Ok nm.

(** ** Rendering a certificate *)

(** [reportlab.lib.units.mm] is [72 / 25.4] points; arithmetic on page
    coordinates is carried out over the rationals. *)
Definition mm : Q := 720 # 254.
Definition A4 : Q * Q := (210 * mm, 297 * mm)%Q.
(** [landscape(pagesize)]: the longer side becomes the width. *)
Definition landscape (p : Q * Q) : Q * Q :=
  let '(a, b) := p in if Qle_bool b a then (a, b) else (b, a).

(** [f"certificate_{name.replace(' ', '_')}.pdf"] *)
Definition certificate_filename (name : string) : string :=
  "certificate_" +:+ PyStr.replace PyStr.space "_" name +:+ ".pdf".

(** [create_certificate(name)].  [files] records the saves that
    completed; what a save that raises leaves at the output path is not
    described. *)
Definition create_certificate (E : env) (name : string) : M string :=
  let filename := certificate_filename name in
  let output_path := path_join (GENERATED_DIR E) filename in
  let! (width, height) :=
    if template_exists E then
      try_except
        (let! (img_width, img_height) := lift (template_size E) in
         ret (inject_Z img_width, inject_Z img_height))
        (λ e, do! logger ERROR ("Error reading template size: " +:+ str_exn e) in
              ret (landscape A4))
    else ret (landscape A4) in
  let! background :=
    if template_exists E then
      try_except
        (do! lift (draw_image E) in
         ret [DrawImage (TEMPLATE_PATH E) 0 0 width height])
        (λ e, do! logger ERROR ("Error loading template: " +:+ str_exn e) in
              ret [])
    else ret [] in
  let font_path := path_join (path_join (app_dir E) "fonts") "Poppins-Bold.ttf" in
  let! font_name :=
    if font_exists E then
      try_except
        (do! lift (register_font E) in ret "Poppins-Bold")
        (λ e, do! logger ERROR ("Error registering font: " +:+ str_exn e) in
              ret "Helvetica-Bold")
    else
      do! logger WARNING ("Font file not found at " +:+ font_path) in
      ret "Helvetica-Bold" in
  let! text_width := lift (stringWidth E name font_name 25) in
  let x := ((width - text_width) / 2 + 50)%Q in
  let y := 235%Q in
  let c := {| pagesize := (width, height);
              ops := background ++
                     [SetFont font_name 25; SetFillColor "#000";
                      DrawString x y name] |} in
  do! lift (save E output_path) in
  do! write_file output_path c in
  ret output_path.

(** ** Mail dispatch *)

(** [not os.getenv(k)]: the variable is unset or empty. *)
Definition unset (v : option string) : bool :=
  match v with Some s => negb (PyStr.truthy s) | None => true end.

(** [send_email_async(recipient, pdf_path)] *)
Definition send_email_async (E : env) (recipient pdf_path : string) : M unit :=
  if unset (getenv E "SMTP_USER") || unset (getenv E "SMTP_PASSWORD") then
    logger WARNING "No SMTP credentials"
  else
    let! content := read_file pdf_path in
    let msg := {| msg_from := default EmptyString (getenv E "SMTP_USER");
                  msg_to := recipient;
                  msg_subject := "Your Certificate - Valli Hospital";
                  msg_body := "Thank you for your feedback! Here is your certificate.";
                  att_subtype := "pdf";
                  att_filename := basename pdf_path;
                  att_content := content |} in
    let call := {| smtp_msg := msg;
                   hostname := getenv E "SMTP_HOST";
                   port := 587;
                   username := default EmptyString (getenv E "SMTP_USER");
                   password := default EmptyString (getenv E "SMTP_PASSWORD");
                   start_tls := true |} in
    try_except
      (do! record_smtp call in lift (smtp_send E call))
      (λ e, logger ERROR ("Email error: " +:+ str_exn e)).

(** ** HTTP handlers *)

Record verify_response : Type := {
  valid : bool;
  name : string;
  has_submitted : bool
}.

(** [SUPABASE_URL and SUPABASE_KEY] *)
Definition store_configured (E : env) : bool :=
  negb (unset (getenv E "SUPABASE_URL")) && negb (unset (getenv E "SUPABASE_KEY")).

(** [POST /verify-email] *)
Definition verify_email (E : env) (data_email : string) : M verify_response :=
  let email := normalize data_email in
  let! index := get_index in
  match index !! email with
  | Some found =>
      let! submitted :=
        if store_configured E then
          try_except
            (let! (status, n) := lift (feedback_query E email) in
             ret ((status =? 200) && (0 <? n)%nat))
            (λ e, do! logger ERROR ("Supabase check failed: " +:+ str_exn e) in
                  ret false)
        else ret false in
      ret {| valid := true; name := found; has_submitted := submitted |}
  | None => raise (HTTPException 404 "Email not found")
  end.

Record FileResponse : Type := {
  path : string;
  media_type : string;
  filename : string
}.

(** [not name] for the value of [EMAIL_TO_NAME.get(email)] *)
Definition no_name (v : option string) : bool := unset v.

(** [POST /generate-certificate] *)
Definition generate_certificate_endpoint (E : env) (data_email : string)
  : M FileResponse :=
  try_except
    (let email := normalize data_email in
     let! index := get_index in
     let found := index !! email in
     if no_name found then raise (HTTPException 404 "Name not found")
     else
       let! pdf := create_certificate E (default EmptyString found) in
       ret {| path := pdf; media_type := "application/pdf";
              filename := basename pdf |})
    (λ e, do! logger ERROR ("Certificate generation failed: " +:+ str_exn e) in
          raise (HTTPException 500 (str_exn e))).

(** [POST /send-certificate]: the answer and the background task that is
    queued, given by the arguments of [send_email_async]. *)
Definition send_certificate_endpoint (E : env) (data_email : string)
  : M (string * (string * string)) :=
  let email := normalize data_email in
  let! index := get_index in
  let found := index !! email in
  if no_name found then raise (HTTPException 404 "Not Found")
  else
    let! pdf := create_certificate E (default EmptyString found) in
    ret ("sending", (email, pdf)).

(** ** Admin panel *)

Inductive login_response : Type :=
  | LoginSuccess (token : string).

(** [POST /admin/login] *)
Definition admin_login (username password : string) : result login_response :=
  if String.eqb username "admin" && String.eqb password "admin123"
  then Ok (LoginSuccess "fake-jwt-token")
  else Raise (HTTPException 401 "Invalid credentials").

(** [GET /admin/feedback]: every record with the [name] field added. *)
Definition get_all_feedback (E : env) : M (list (item * option string)) :=
  if negb (store_configured E) then raise (HTTPException 500 "DB not configured")
  else
    let! (resp, data) := lift (feedback_all E) in
    let (status, text) := resp : Z * string in
    if negb (status =? 200) then raise (HTTPException 500 text)
    else
      let! index := get_index in
      ret (map (λ it,
                  let email_key := normalize (default EmptyString (item_email it)) in
                  (it, match index !! email_key with
                       | Some n => Some n
                       | None => item_email it
                       end)) data).

(** The average is a binary64 number, as in NumPy; the operations on it
    are those of IEEE 754 with rounding to nearest, ties to even. *)
Record stats : Type := {
  total_feedback : nat;
  average_rating : PrimFloat.float;
  rating_counts : gmap Z nat
}.

(** The ratings present in the [rating] column; a record without the key
    is a missing value there. *)
Definition rating_column (data : list (item * option string)) : list Z :=
  omap (λ r, item_rating r.1) data.

(** The binary64 number of an integer (exact below 2^53 in magnitude). *)
Definition float_of_Z (z : Z) : PrimFloat.float :=
  if z <? 0 then PrimFloat.opp (PrimFloat.of_uint63 (Uint63.of_Z (- z)))
  else PrimFloat.of_uint63 (Uint63.of_Z z).

(** [Series.mean()]: the sum of the values present, taken in binary64,
    divided by their number.  The sum is exact as long as it stays below
    2^53 in magnitude. *)
Definition mean (l : list Z) : PrimFloat.float :=
  PrimFloat.div (float_of_Z (foldr Z.add 0 l))
                (float_of_Z (Z.of_nat (length l))).

(** [rint]: the nearest integral binary64 number, ties to even, keeping
    the sign.  Below 2^52 in magnitude, adding and subtracting 2^52 rounds
    to an integer; from 2^52 on every binary64 number is integral. *)
Definition rint (x : PrimFloat.float) : PrimFloat.float :=
  let two52 := float_of_Z 4503599627370496 in
  if PrimFloat.ltb (PrimFloat.abs x) two52 then
    let r := if PrimFloat.get_sign x
             then PrimFloat.add (PrimFloat.sub x two52) two52
             else PrimFloat.sub (PrimFloat.add x two52) two52 in
    if PrimFloat.is_zero r
    then (if PrimFloat.get_sign x then PrimFloat.neg_zero else PrimFloat.zero)
    else r
  else x.

(** [round(x, 2)] on a NumPy binary64 scalar: multiply by 100, round to
    the nearest integer, divide by 100. *)
Definition round2 (x : PrimFloat.float) : PrimFloat.float :=
  PrimFloat.div (rint (PrimFloat.mul x (float_of_Z 100))) (float_of_Z 100).

(** [Series.value_counts().to_dict()]: each value present with its number
    of occurrences. *)
Definition value_counts (l : list Z) : list (Z * nat) :=
  map (λ k, (k, length (filter (λ v, v = k) l))) (remove_dups l).

(** [df.empty] for [df = pd.DataFrame(data)]: every record carries the
    added [name] field, so the frame is empty only without records. *)
Definition df_empty {A} (data : list A) : bool :=
  match data with [] => true | _ => false end.

(** The body of [get_admin_stats] after the records are fetched. *)
Definition aggregate (data : list (item * option string)) : stats :=
  let init : gmap Z nat := <[1 := 0%nat]> (<[2 := 0%nat]> (<[3 := 0%nat]>
                           (<[4 := 0%nat]> (<[5 := 0%nat]> ∅)))) in
  let has_column := existsb (λ r, bool_decide (is_Some (item_rating r.1))) data in
  if negb (df_empty data) && has_column then
    let col := rating_column data in
    {| total_feedback := length data;
       average_rating := round2 (mean col);
       rating_counts :=
         foldl (λ m kv, <[kv.1 := kv.2]> m) init (value_counts col) |}
  else
    {| total_feedback := length data;
       average_rating := PrimFloat.zero;
       rating_counts := init |}.

(** [GET /admin/stats] *)
Definition get_admin_stats (E : env) : M stats :=
  let! data := get_all_feedback E in
  ret (aggregate data).

(** ** The normalisation in the words of the specification

    Trim, lower-case, then remove every white-space character.  It is
    compared with [normalize] below. *)
Fixpoint remove_whitespace (s : string) : string :=
  match s with
  | EmptyString => EmptyString
  | String c s' =>
      if PyStr.isspace c then remove_whitespace s'
      else String c (remove_whitespace s')
  end.

Definition normalize_spec (x : string) : string :=
  remove_whitespace (PyStr.lower (PyStr.strip x)).

(** ** Sample surroundings, on which the definitions are run *)

Module Sample.

(** A roster whose first and last rows carry the same address up to
    case and white space. *)
Definition roster : DataFrame :=
  {| columns := ["Email "; " Full Name"];
     rows := [[Val " Alice@X.com "; Val "Alice Smith "];
              [NaN; Val "Nobody"];
              [Val "alice@x.com"; Val "Alice Two"]] |}.

(** A header in which two labels become [email] once trimmed. *)
Definition roster_two_email_labels : DataFrame :=
  {| columns := ["email"; " email"; "name"];
     rows := [[Val "a@x.com"; Val "b@x.com"; Val "Alice"];
              [Val "a@x.com"; Val "c@x.com"; Val "Alicia"]] |}.

(** A header without an address column. *)
Definition roster_no_email : DataFrame :=
  {| columns := ["id"; "name"];
     rows := [[Val "1"; Val "Alice"]] |}.

Definition no_variables (_ : string) : option string := None.

Definition store_variables (k : string) : option string :=
  if String.eqb k "SUPABASE_URL" then Some "https://store.example"
  else if String.eqb k "SUPABASE_KEY" then Some "key"
  else None.

Definition rated (l : list Z) : list item :=
  map (λ r, {| item_email := Some "a@x.com"; item_rating := Some r |}) l.

(** Surroundings without template and font files, in which every
    external call succeeds and a glyph is ten units wide. *)
Definition surroundings (vars : string → option string) (df : DataFrame)
  (records : list item) : env :=
  {| getenv := vars;
     app_dir := "/srv/app";
     csv := Some (Ok df);
     series_str := λ _, "Series";
     template_exists := false;
     template_size := Ok (2000, 1414);
     draw_image := Ok tt;
     font_exists := false;
     register_font := Ok tt;
     stringWidth := λ text _ _,
       Ok (inject_Z (10 * Z.of_nat (String.length text)));
     save := λ _, Ok tt;
     smtp_send := λ _, Ok tt;
     feedback_query := λ _, Ok (200, 0%nat);
     feedback_all := Ok (200, "[]", records) |}.

Definition plain : env := surroundings no_variables roster [].

(** An address with a tab between two of its characters. *)
Definition tabbed : string := String "a" (String PyStr.tab "b@x.com").

End Sample.

(** The invariant of the roster dictionary: every key is its own normal
    form and every name is trimmed. *)
Definition index_ok (index : gmap string string) : Prop :=
  ∀ k v, index !! k = Some v → normalize k = k ∧ PyStr.strip v = v.


(** ** Feedback store endpoints *)

(** The body of [POST /feedback]. *)
Record FeedbackRequest : Type := {
  fr_email : string;
  fr_rating : Z;
  fr_q1 : string;
  fr_q2 : string;
  fr_q3 : string;
  fr_q4 : string;
  fr_q5 : string
}.

(** The JSON object forwarded to the store. *)
Record payload : Type := {
  p_email : string;
  p_rating : Z;
  q1_relevance : string;
  q2_confidence : string;
  q3_instructor : string;
  q4_duration : string;
  q5_satisfaction : string
}.

(** The two write calls to the store, each given by its outcome: the
    status code and the body text of the response, or the exception the
    transport raises. *)
Record store_api : Type := {
  (** [client.post(url, json=payload, headers=headers)] *)
  post : string → payload → result (Z * string);
  (** [client.delete(url, headers=headers)] *)
  delete_ : string → result (Z * string)
}.

Definition SUPABASE_URL (E : env) : string :=
  default EmptyString (getenv E "SUPABASE_URL").

(** [POST /feedback] *)
Definition submit_feedback (E : env) (A : store_api) (data : FeedbackRequest)
  : M string :=
  if negb (store_configured E)
  then raise (HTTPException 500 "Database not configured")
  else
    let url := SUPABASE_URL E +:+ "/rest/v1/feedback" in
    let body := {| p_email := fr_email data;
                   p_rating := fr_rating data;
                   q1_relevance := fr_q1 data;
                   q2_confidence := fr_q2 data;
                   q3_instructor := fr_q3 data;
                   q4_duration := fr_q4 data;
                   q5_satisfaction := fr_q5 data |} in
    try_except
      (let! (status, text) := lift (post A url body) in
       if 400 <=? status then
         do! logger ERROR ("Supabase error: " +:+ text) in
         raise (HTTPException 500 text)
       else ret "success")
      (λ e, do! logger ERROR ("Request error: " +:+ str_exn e) in
            raise (HTTPException 500 (str_exn e))).

(** [DELETE /admin/feedback/{email}] *)
Definition delete_feedback (E : env) (A : store_api) (email : string)
  : M string :=
  if negb (store_configured E)
  then raise (HTTPException 500 "DB not configured")
  else
    let url := SUPABASE_URL E +:+ "/rest/v1/feedback?email=eq." +:+ email in
    let! (status, text) := lift (delete_ A url) in
    if 400 <=? status then raise (HTTPException 500 text)
    else ret "deleted".

(** ** Further sample surroundings *)

Module Scenario.

Definition mail_variables (k : string) : option string :=
  if String.eqb k "SMTP_HOST" then Some "smtp.example"
  else if String.eqb k "SMTP_USER" then Some "sender@example"
  else if String.eqb k "SMTP_PASSWORD" then Some "secret"
  else None.

(** Surroundings with mail credentials. *)
Definition mailing : env :=
  Sample.surroundings mail_variables Sample.roster [].

Definition mail_variables_without_host (k : string) : option string :=
  if String.eqb k "SMTP_USER" then Some "sender@example"
  else if String.eqb k "SMTP_PASSWORD" then Some "secret"
  else None.

(** Surroundings with a mail user and password but no mail host. *)
Definition mailing_without_host : env :=
  Sample.surroundings mail_variables_without_host Sample.roster [].

(** Surroundings with the store configured. *)
Definition stored : env :=
  Sample.surroundings Sample.store_variables Sample.roster
    (Sample.rated [5; 5; 4; 3; 5]).

(** Surroundings in which the template and the font file exist but none
    of them can be used, and the duplicate check fails. *)
Definition broken_assets : env :=
  {| getenv := Sample.store_variables;
     app_dir := "/srv/app";
     csv := Some (Ok Sample.roster);
     series_str := λ _, "Series";
     template_exists := true;
     template_size := Raise (Exception "cannot identify image file");
     draw_image := Raise (Exception "cannot identify image file");
     font_exists := true;
     register_font := Raise (Exception "not a TrueType font");
     stringWidth := λ text _ _,
       Ok (inject_Z (10 * Z.of_nat (String.length text)));
     save := λ _, Ok tt;
     smtp_send := λ _, Raise (Exception "connection refused");
     feedback_query := λ _, Raise (Exception "connection refused");
     feedback_all := Raise (Exception "connection refused") |}.

(** The process state after the sample roster is loaded. *)
Definition loaded : state := (startup_event Sample.plain initial_state).2.

(** The state after a certificate is rendered for the loaded roster. *)
Definition rendered : state :=
  (create_certificate mailing "Alice Two" loaded).2.

(** A state whose roster maps an address to the empty name. *)
Definition blank_name : state :=
  {| EMAIL_TO_NAME := {[ "a@x.com" := EmptyString ]};
     log := []; files := ∅; smtp_calls := [] |}.

(** A store that accepts every write. *)
Definition accepting : store_api :=
  {| post := λ _ _, Ok (201, EmptyString);
     delete_ := λ _, Ok (204, EmptyString) |}.

(** A store that rejects every write. *)
Definition rejecting : store_api :=
  {| post := λ _ _, Ok (409, "duplicate key");
     delete_ := λ _, Ok (401, "not allowed") |}.

Definition request : FeedbackRequest :=
  {| fr_email := " Alice@X.com "; fr_rating := 5;
     fr_q1 := "yes"; fr_q2 := "yes"; fr_q3 := "good";
     fr_q4 := "right"; fr_q5 := "high" |}.

End Scenario.

(** ** Properties of the string primitives *)

Module PyStrFacts.
Import PyStr.

Ltac by_cases_on c :=
  destruct c as [[] [] [] [] [] [] [] []]; vm_compute; congruence.

Lemma isspace_lower_char c : isspace (lower_char c) = isspace c.
Proof. by_cases_on c. Qed.

Lemma lower_char_idem c : lower_char (lower_char c) = lower_char c.
Proof. by_cases_on c. Qed.

Lemma eqb_space_lower_char c :
  Ascii.eqb (lower_char c) space = Ascii.eqb c space.
Proof. by_cases_on c. Qed.

Lemma isspace_eqb_space c : isspace c = false → Ascii.eqb c space = false.
Proof. by_cases_on c. Qed.

Lemma eqb_space_isspace c : Ascii.eqb c space = true → isspace c = true.
Proof. by_cases_on c. Qed.

Lemma head_ok_lstrip s : head_ok (lstrip s) = true.
Proof.
  induction s as [|c s IH]; simpl; [done|].
  destruct (isspace c) eqn:Hc; [done|]. simpl. by rewrite Hc.
Qed.

Lemma lstrip_id s : head_ok s = true → lstrip s = s.
Proof.
  destruct s as [|c s]; simpl; [done|].
  by destruct (isspace c).
Qed.

Lemma last_ok_rstrip s : last_ok (rstrip s) = true.
Proof.
  induction s as [|c s IH]; simpl; [done|].
  destruct (rstrip s) as [|d r] eqn:Hr.
  - destruct (isspace c) eqn:Hc; simpl; [done|]. by rewrite Hc.
  - exact IH.
Qed.

Lemma rstrip_id s : last_ok s = true → rstrip s = s.
Proof.
  induction s as [|c s IH]; [done|].
  destruct s as [|d s].
  - simpl. by destruct (isspace c).
  - intros H. change (last_ok (String d s) = true) in H.
    change (rstrip (String c (String d s)))
      with (match rstrip (String d s) with
            | EmptyString =>
                if isspace c then EmptyString else String c EmptyString
            | r => String c r
            end).
    by rewrite (IH H).
Qed.

Lemma head_ok_rstrip s : head_ok s = true → head_ok (rstrip s) = true.
Proof.
  destruct s as [|c s]; simpl; [done|]. intros Hc.
  destruct (rstrip s); [|exact Hc].
  destruct (isspace c) eqn:E; simpl; [done|]. by rewrite E.
Qed.

Lemma head_ok_strip s : head_ok (strip s) = true.
Proof. apply head_ok_rstrip, head_ok_lstrip. Qed.

Lemma last_ok_strip s : last_ok (strip s) = true.
Proof. apply last_ok_rstrip. Qed.

Lemma strip_id s : head_ok s = true → last_ok s = true → strip s = s.
Proof. intros Hh Hl. unfold strip. by rewrite (lstrip_id _ Hh), rstrip_id. Qed.

Lemma strip_idem s : strip (strip s) = strip s.
Proof. apply strip_id; [apply head_ok_strip | apply last_ok_strip]. Qed.

Lemma head_ok_lower s : head_ok (lower s) = head_ok s.
Proof. destruct s; simpl; [done|]. by rewrite isspace_lower_char. Qed.

Lemma last_ok_lower s : last_ok (lower s) = last_ok s.
Proof.
  induction s as [|c s IH]; [done|].
  destruct s as [|d s]; [|exact IH].
  simpl. by rewrite isspace_lower_char.
Qed.

Lemma lower_idem s : lower (lower s) = lower s.
Proof. induction s; simpl; [done|]. by rewrite lower_char_idem, IHs. Qed.

(** Removing the space character: [replace(' ', '')]. *)
Abbreviation unspace := (replace space EmptyString).

Lemma unspace_cons c s :
  unspace (String c s) =
  if Ascii.eqb c space then unspace s else String c (unspace s).
Proof. reflexivity. Qed.

Lemma head_ok_unspace s : head_ok s = true → head_ok (unspace s) = true.
Proof.
  destruct s as [|c s]; [done|]. rewrite unspace_cons. simpl. intros Hc.
  rewrite isspace_eqb_space by (by destruct (isspace c)). exact Hc.
Qed.

Lemma last_ok_unspace s :
  last_ok s = true →
  last_ok (unspace s) = true ∧ (s ≠ EmptyString → unspace s ≠ EmptyString).
Proof.
  induction s as [|c s IH]; [done|].
  rewrite unspace_cons. destruct s as [|d s].
  - simpl. intros Hc. rewrite isspace_eqb_space by (by destruct (isspace c)).
    simpl. by rewrite Hc.
  - intros H. change (last_ok (String d s) = true) in H.
    destruct (IH H) as [IH1 IH2].
    destruct (Ascii.eqb c space); [split; [done|intros _; by apply IH2]|].
    split; [|done].
    destruct (unspace (String d s)) eqn:Hu; [by destruct IH2|done].
Qed.

Lemma lower_unspace s : lower (unspace s) = unspace (lower s).
Proof.
  induction s as [|c s IH]; [done|].
  simpl lower. rewrite !unspace_cons, eqb_space_lower_char.
  destruct (Ascii.eqb c space); [done|]. simpl. by rewrite IH.
Qed.

Lemma unspace_idem s : unspace (unspace s) = unspace s.
Proof.
  induction s as [|c s IH]; [done|].
  rewrite unspace_cons. destruct (Ascii.eqb c space) eqn:Hc; [done|].
  by rewrite unspace_cons, Hc, IH.
Qed.

End PyStrFacts.

(** ** Normalisation *)

Section Normalize.
Import PyStr PyStrFacts.

Lemma normalize_head_last x :
  head_ok (normalize x) = true ∧ last_ok (normalize x) = true.
Proof.
  unfold normalize. split.
  - apply head_ok_unspace. rewrite head_ok_lower. apply head_ok_strip.
  - apply last_ok_unspace. rewrite last_ok_lower. apply last_ok_strip.
Qed.

Lemma normalize_idem x : normalize (normalize x) = normalize x.
Proof.
  destruct (normalize_head_last x) as [Hh Hl].
  unfold normalize at 1. rewrite (strip_id _ Hh Hl).
  unfold normalize.
  by rewrite lower_unspace, lower_idem, unspace_idem.
Qed.

Lemma chars_unspace s :
  list_ascii_of_string (unspace s) =
  filter (λ c, c ≠ space) (list_ascii_of_string s).
Proof.
  induction s as [|c s IH]; [done|].
  rewrite unspace_cons. simpl list_ascii_of_string.
  destruct (Ascii.eqb_spec c space) as [->|Hne].
  - rewrite filter_cons_False by (intros H; by apply H). exact IH.
  - rewrite filter_cons_True by done. simpl. by rewrite IH.
Qed.

Lemma chars_lower s :
  list_ascii_of_string (lower s) = map lower_char (list_ascii_of_string s).
Proof. induction s as [|c s IH]; simpl; [done|]. by rewrite IH. Qed.

Lemma verify_email_lookup E x s :
  match EMAIL_TO_NAME s !! normalize x with
  | Some n =>
      ∃ b s', verify_email E x s =
              (Ok {| valid := true; name := n; has_submitted := b |}, s')
  | None =>
      verify_email E x s = (Raise (HTTPException 404 "Email not found"), s)
  end.
Proof.
  unfold verify_email, bind, get_index.
  destruct (EMAIL_TO_NAME s !! normalize x) as [n|]; [|done].
  destruct (store_configured E); [|by eexists _, _].
  unfold try_except, bind, lift.
  destruct (feedback_query E (normalize x)) as [[status k]|e];
    by eexists _, _.
Qed.

End Normalize.

(** C1, as stated, fails: the normal form of an address with a tab
    between two characters keeps the tab, whereas removing every
    white-space character would drop it. *)
Lemma normalize_keeps_interior_tab :
  normalize Sample.tabbed = Sample.tabbed
  ∧ normalize_spec Sample.tabbed = "ab@x.com"
  ∧ normalize Sample.tabbed ≠ normalize_spec Sample.tabbed.
Proof. vm_compute. repeat split. discriminate. Qed.

(** C1, amended.  The normal form of [x] is [x] trimmed of surrounding
    white space, lower-cased, with every space character U+0020 removed
    and every other character kept; the lookup of [verify_email] is an
    exact match of that normal form against the keys of the index, and
    [send_certificate_endpoint] misses on the same condition. *)
Theorem normalize_trim_lower_unspace_exact_lookup (x : string) :
  list_ascii_of_string (normalize x) =
    filter (λ c, c ≠ PyStr.space)
      (map PyStr.lower_char (list_ascii_of_string (PyStr.strip x)))
  ∧ (∀ E s,
       match EMAIL_TO_NAME s !! normalize x with
       | Some n =>
           ∃ b s', verify_email E x s =
                   (Ok {| valid := true; name := n; has_submitted := b |}, s')
       | None =>
           verify_email E x s = (Raise (HTTPException 404 "Email not found"), s)
           ∧ send_certificate_endpoint E x s =
               (Raise (HTTPException 404 "Not Found"), s)
       end).
Proof.
  split.
  - unfold normalize. by rewrite chars_unspace, chars_lower.
  - intros E s. pose proof (verify_email_lookup E x s) as H.
    destruct (EMAIL_TO_NAME s !! normalize x) as [n|] eqn:Hx; [done|].
    split; [done|].
    unfold send_certificate_endpoint, bind, get_index. by rewrite Hx.
Qed.

(** ** Admin login *)

(** C10.  [admin_login] answers with the success status and the fixed
    token exactly when the user name is ["admin"] and the password is
    ["admin123"]; for every other pair it raises the 401 error with the
    detail ["Invalid credentials"]. *)
Theorem admin_login_success_iff (u p : string) :
  (admin_login u p = Ok (LoginSuccess "fake-jwt-token")
   ↔ u = "admin" ∧ p = "admin123")
  ∧ (admin_login u p = Raise (HTTPException 401 "Invalid credentials")
     ↔ ¬ (u = "admin" ∧ p = "admin123")).
Proof.
  unfold admin_login.
  destruct (String.eqb_spec u "admin") as [Hu|Hu];
    destruct (String.eqb_spec p "admin123") as [Hp|Hp]; simpl;
    intuition congruence.
Qed.

(** ** The certificate endpoints on an unknown address *)

(** C3.  On a roster index that lacks the address, and so in particular on
    the empty index of a fresh process,
    [generate_certificate_endpoint] raises the 404 error inside its own
    [try], whose handler turns it into a 500 error; nothing is rendered.
    [send_certificate_endpoint], which has no such handler, answers 404 on
    the same input. *)
Theorem generate_certificate_unknown_email (E : env) (raw : string) :
  generate_certificate_endpoint E raw initial_state =
    (Raise (HTTPException 500 "404: Name not found"),
     {| EMAIL_TO_NAME := ∅;
        log := [(ERROR, "Certificate generation failed: 404: Name not found")];
        files := ∅;
        smtp_calls := [] |})
  ∧ send_certificate_endpoint E raw initial_state =
      (Raise (HTTPException 404 "Not Found"), initial_state).
Proof. split; reflexivity. Qed.

(** ** Rendering *)

Section Render.

Lemma append_nil_l b : EmptyString +:+ b = b.
Proof. reflexivity. Qed.

Lemma append_cons c a b : String c a +:+ b = String c (a +:+ b).
Proof. reflexivity. Qed.

Lemma ends_with_slash_app a b :
  b ≠ EmptyString → ends_with_slash (a +:+ b) = ends_with_slash b.
Proof.
  intros Hb. induction a as [|c a IH]; [done|].
  rewrite append_cons.
  destruct (a +:+ b) as [|d r] eqn:Hab.
  - destruct a; [rewrite append_nil_l in Hab; congruence | discriminate].
  - exact IH.
Qed.

Lemma truthy_app a b :
  b ≠ EmptyString → PyStr.truthy (a +:+ b) = true.
Proof.
  intros Hb. destruct a; [rewrite append_nil_l; by destruct b | done].
Qed.

(** The output directory is not empty and does not end in a slash, so a
    file name is joined to it with one slash. *)
Lemma join_generated_dir E f :
  starts_with_slash f = false →
  path_join (GENERATED_DIR E) f = GENERATED_DIR E +:+ "/" +:+ f.
Proof.
  intros Hf. unfold path_join at 1. rewrite Hf.
  assert (PyStr.truthy (GENERATED_DIR E) = true
          ∧ ends_with_slash (GENERATED_DIR E) = false) as [-> ->]; [|done].
  unfold GENERATED_DIR, path_join. simpl starts_with_slash. cbv iota.
  destruct (negb (PyStr.truthy (app_dir E)) || ends_with_slash (app_dir E)).
  - by rewrite truthy_app, ends_with_slash_app.
  - change (app_dir E +:+ "/" +:+ "generated")
      with (app_dir E +:+ "/generated").
    by rewrite truthy_app, ends_with_slash_app.
Qed.

Lemma chars_app a b :
  list_ascii_of_string (a +:+ b) =
  (list_ascii_of_string a ++ list_ascii_of_string b)%list.
Proof.
  induction a as [|c a IH]; [done|].
  rewrite append_cons. simpl. by rewrite IH.
Qed.

Lemma chars_replace_underscore s :
  list_ascii_of_string (PyStr.replace PyStr.space "_" s) =
  map (λ c, if Ascii.eqb c PyStr.space then "_"%char else c)
      (list_ascii_of_string s).
Proof.
  induction s as [|c s IH]; [done|]. simpl.
  destruct (Ascii.eqb c PyStr.space);
    rewrite ?append_cons, ?append_nil_l; simpl; by rewrite IH.
Qed.

(** What a successful run of [create_certificate] returns and writes. *)
Lemma create_certificate_ok E nm s p s' :
  create_certificate E nm s = (Ok p, s') →
  ∃ width height pre font tw,
    p = path_join (GENERATED_DIR E) (certificate_filename nm)
    ∧ (font = "Poppins-Bold" ∨ font = "Helvetica-Bold")
    ∧ stringWidth E nm font 25 = Ok tw
    ∧ save E p = Ok tt
    ∧ (∀ x y t, DrawString x y t ∉ pre)
    ∧ files s' =
        <[p := {| pagesize := (width, height);
                  ops := pre ++
                         [SetFont font 25; SetFillColor "#000";
                          DrawString ((width - tw) / 2 + 50)%Q 235%Q nm] |}]>
          (files s)
    ∧ EMAIL_TO_NAME s' = EMAIL_TO_NAME s
    ∧ smtp_calls s' = smtp_calls s.
Proof.
  unfold create_certificate, bind, try_except, lift, ret, logger, write_file.
  intros H.
  repeat match type of H with
         | context [match ?b with _ => _ end] =>
             match b with
             | template_exists E => destruct (template_exists E)
             | font_exists E => destruct (font_exists E)
             | template_size E => destruct (template_size E) as [[? ?]|?]
             | draw_image E => destruct (draw_image E)
             | register_font E => destruct (register_font E)
             | stringWidth E ?n ?f ?z =>
                 destruct (stringWidth E n f z) eqn:?
             | save E ?q => destruct (save E q) as [[]|?] eqn:?
             end; simpl in H
         end;
    try discriminate H;
    injection H as <- <-; simpl;
    match goal with
    | Hw : stringWidth E nm ?f 25 = Ok ?tw
      |- context [Build_document (?w, ?h) ?l] =>
        match l with
        | DrawImage ?a ?b ?c ?d ?e :: _ =>
            exists w, h, [DrawImage a b c d e], f, tw
        | SetFont _ _ :: _ => exists w, h, [], f, tw
        end
    end;
    (split; [reflexivity|]);
    (split; [first [left; reflexivity | right; reflexivity]|]);
    (split; [assumption|]);
    (split; [assumption|]);
    (split; [|split; [reflexivity|split; reflexivity]]);
    intros x y t Hin;
    repeat (apply elem_of_cons in Hin as [Hin|Hin]; [discriminate Hin|]);
    by apply elem_of_nil in Hin.
Qed.

End Render.

(** C4.  Whenever a certificate is rendered for a name, the page written
    holds exactly one text-drawing operation, for that name, at horizontal
    position [((canvasWidth - textWidth) / 2) + 50] and vertical position
    235, where [canvasWidth] is the page width and [textWidth] the width of
    the name at size 25 in the selected typeface (the bundled bold face or
    the fallback bold face), which is also the font set at size 25. *)
Theorem create_certificate_text_position (E : env) (nm : string)
  (s : state) (p : string) (s' : state) :
  create_certificate E nm s = (Ok p, s') →
  ∃ doc font tw pre,
    files s' !! p = Some doc
    ∧ (font = "Poppins-Bold" ∨ font = "Helvetica-Bold")
    ∧ stringWidth E nm font 25 = Ok tw
    ∧ ops doc =
        (pre ++ [SetFont font 25; SetFillColor "#000";
                 DrawString ((fst (pagesize doc) - tw) / 2 + 50)%Q 235%Q nm])%list
    ∧ (∀ x y t, DrawString x y t ∉ pre).
Proof.
  intros H.
  destruct (create_certificate_ok _ _ _ _ _ H)
    as (w & h & pre & font & tw & _ & Hfont & Htw & _ & Hpre & Hfiles & _).
  eexists _, font, tw, pre. rewrite Hfiles, lookup_insert_eq.
  repeat split; done.
Qed.

Lemma create_certificate_text_position_witness :
  ∃ doc font tw pre,
    files (create_certificate Sample.plain "Jane Doe" initial_state).2
      !! "/srv/app/generated/certificate_Jane_Doe.pdf" = Some doc
    ∧ (font = "Poppins-Bold" ∨ font = "Helvetica-Bold")
    ∧ stringWidth Sample.plain "Jane Doe" font 25 = Ok tw
    ∧ ops doc =
        (pre ++ [SetFont font 25; SetFillColor "#000";
                 DrawString ((fst (pagesize doc) - tw) / 2 + 50)%Q 235%Q
                   "Jane Doe"])%list
    ∧ (∀ x y t, DrawString x y t ∉ pre).
Proof.
  apply (create_certificate_text_position Sample.plain "Jane Doe"
           initial_state).
  reflexivity.
Defined.

(** C5.  Whenever a certificate is rendered for a name, the file is written
    in the fixed output directory under the name [certificate_], then the
    display name with every space turned into an underscore and every other
    character kept, then [.pdf]; for ["Jane Doe"] the file name is
    [certificate_Jane_Doe.pdf]. *)
Theorem create_certificate_artifact_path (E : env) (nm : string)
  (s : state) (p : string) (s' : state) :
  create_certificate E nm s = (Ok p, s') →
  p = GENERATED_DIR E +:+ "/" +:+ certificate_filename nm
  ∧ is_Some (files s' !! p)
  ∧ list_ascii_of_string (certificate_filename nm) =
      (list_ascii_of_string "certificate_"
       ++ map (λ c, if Ascii.eqb c " " then "_"%char else c)
              (list_ascii_of_string nm)
       ++ list_ascii_of_string ".pdf")%list
  ∧ certificate_filename "Jane Doe" = "certificate_Jane_Doe.pdf".
Proof.
  intros H.
  destruct (create_certificate_ok _ _ _ _ _ H)
    as (w & h & pre & font & tw & Hp & _ & _ & _ & _ & Hfiles & _).
  split; [|split; [|split; [|reflexivity]]].
  - rewrite Hp. by apply join_generated_dir.
  - rewrite Hfiles, lookup_insert_eq. by eexists.
  - unfold certificate_filename.
    by rewrite !chars_app, chars_replace_underscore.
Qed.

Lemma create_certificate_artifact_path_witness :
  "/srv/app/generated/certificate_Jane_Doe.pdf" =
    GENERATED_DIR Sample.plain +:+ "/" +:+ certificate_filename "Jane Doe"
  ∧ is_Some
      (files (create_certificate Sample.plain "Jane Doe" initial_state).2
         !! "/srv/app/generated/certificate_Jane_Doe.pdf")
  ∧ list_ascii_of_string (certificate_filename "Jane Doe") =
      (list_ascii_of_string "certificate_"
       ++ map (λ c, if Ascii.eqb c " " then "_"%char else c)
              (list_ascii_of_string "Jane Doe")
       ++ list_ascii_of_string ".pdf")%list
  ∧ certificate_filename "Jane Doe" = "certificate_Jane_Doe.pdf".
Proof.
  apply (create_certificate_artifact_path Sample.plain "Jane Doe"
           initial_state).
  reflexivity.
Defined.

(** ** The roster load *)

Section Columns.
Import PyStr.

Lemma lstrip_suffix s : ∃ w, s = w +:+ lstrip s.
Proof.
  induction s as [|c s [w IH]]; [exists EmptyString; reflexivity|]. simpl.
  destruct (isspace c); [|exists EmptyString; reflexivity].
  exists (String c w). rewrite append_cons. by rewrite <-IH.
Qed.

Lemma rstrip_prefix s : ∃ w, s = rstrip s +:+ w.
Proof.
  induction s as [|c s [w IH]]; [exists EmptyString; reflexivity|]. simpl.
  destruct (rstrip s) as [|d r].
  - rewrite append_nil_l in IH. subst w.
    destruct (isspace c); [exists (String c s)|exists s]; reflexivity.
  - exists w. rewrite append_cons. by rewrite <-IH.
Qed.

Lemma lower_app a b : lower (a +:+ b) = lower a +:+ lower b.
Proof.
  induction a as [|c a IH]; [done|].
  rewrite append_cons. simpl. by rewrite IH.
Qed.

Lemma prefix_nil s : String.prefix EmptyString s = true.
Proof. by destruct s. Qed.

Lemma prefix_app sub a b :
  String.prefix sub a = true → String.prefix sub (a +:+ b) = true.
Proof.
  revert a. induction sub as [|x sub IH]; intros a.
  - intros _. apply prefix_nil.
  - destruct a as [|y a]; [done|]. rewrite append_cons. simpl.
    destruct (ascii_dec x y); [apply IH|done].
Qed.

Lemma contains_cons sub c s :
  contains sub (String c s) = String.prefix sub (String c s) || contains sub s.
Proof. reflexivity. Qed.

Lemma contains_app_r sub a b :
  contains sub b = true → contains sub (a +:+ b) = true.
Proof.
  intros Hb. induction a as [|c a IH]; [done|].
  rewrite append_cons, contains_cons, IH. apply orb_true_r.
Qed.

Lemma contains_app_l sub a b :
  contains sub a = true → contains sub (a +:+ b) = true.
Proof.
  induction a as [|c a IH].
  - destruct sub; [|done]. intros _. rewrite append_nil_l.
    destruct b; [done|]. by rewrite contains_cons, prefix_nil.
  - rewrite append_cons, !contains_cons. intros [H|H]%orb_true_iff.
    + pose proof (prefix_app _ (String c a) b H) as H'.
      rewrite append_cons in H'. by rewrite H'.
    + rewrite (IH H). apply orb_true_r.
Qed.

(** A label that shows the substring once trimmed and lower-cased shows
    it already when only lower-cased. *)
Lemma contains_lower_strip sub c :
  contains sub (lower (strip c)) = true → contains sub (lower c) = true.
Proof.
  intros H. unfold strip in H.
  destruct (lstrip_suffix c) as [w1 H1].
  destruct (rstrip_prefix (lstrip c)) as [w2 H2].
  rewrite H1, lower_app. apply contains_app_r.
  rewrite H2, lower_app. by apply contains_app_l.
Qed.

Lemma find_col_None sub (cols : list string) :
  (∀ c, c ∈ cols → contains sub (lower c) = false) →
  find_col sub (map strip cols) = None.
Proof.
  unfold find_col. induction cols as [|c cols IH]; intros H; [done|].
  simpl. destruct (contains sub (lower (strip c))) eqn:Hc.
  - apply contains_lower_strip in Hc.
    rewrite H in Hc by apply list_elem_of_here. done.
  - apply IH. intros c' Hc'. apply H. by apply list_elem_of_further.
Qed.

Lemma find_col_Some sub cols c :
  find_col sub cols = Some c → c ∈ cols ∧ contains sub (lower c) = true.
Proof.
  unfold find_col. intros [H1 H2]%find_some.
  split; [by apply list_elem_of_In|done].
Qed.

End Columns.

(** C6.  When no header label contains ["email"], or none contains
    ["name"], in any letter case, the load ends normally with the index
    empty and one error line in the log; every later [verify_email]
    raises the 404 error ["Email not found"], the same outcome as on any
    index that merely lacks the key. *)
Theorem startup_without_columns (E : env) (df : DataFrame) :
  csv E = Some (Ok df) →
  (∀ c, c ∈ columns df → PyStr.contains "email" (PyStr.lower c) = false)
  ∨ (∀ c, c ∈ columns df → PyStr.contains "name" (PyStr.lower c) = false) →
  let s' := {| EMAIL_TO_NAME := ∅;
               log := [(ERROR, "Could not find Email/Name columns.")];
               files := ∅;
               smtp_calls := [] |} in
  startup_event E initial_state = (Ok tt, s')
  ∧ ∀ E' raw,
      verify_email E' raw s' = (Raise (HTTPException 404 "Email not found"), s')
      ∧ ∀ s'', EMAIL_TO_NAME s'' !! normalize raw = None →
               (verify_email E' raw s'').1 = (verify_email E' raw s').1.
Proof.
  intros Hcsv Hcols s'. split.
  - unfold startup_event, try_except, bind, lift. rewrite Hcsv.
    destruct Hcols as [H|H]; rewrite (find_col_None _ _ H).
    + reflexivity.
    + by destruct (find_col "email" (map PyStr.strip (columns df))).
  - intros E' raw.
    assert (verify_email E' raw s'
            = (Raise (HTTPException 404 "Email not found"), s')) as Hv.
    { pose proof (verify_email_lookup E' raw s') as H.
      unfold s' in H. simpl in H.
      rewrite (lookup_empty (normalize raw)) in H. exact H. }
    split; [exact Hv|]. intros s'' Hs''.
    pose proof (verify_email_lookup E' raw s'') as H.
    rewrite Hs'' in H. by rewrite H, Hv.
Qed.

Lemma startup_without_columns_witness :
  let E := Sample.surroundings Sample.no_variables Sample.roster_no_email [] in
  let s' := {| EMAIL_TO_NAME := ∅;
               log := [(ERROR, "Could not find Email/Name columns.")];
               files := ∅;
               smtp_calls := [] |} in
  startup_event E initial_state = (Ok tt, s')
  ∧ ∀ E' raw,
      verify_email E' raw s' = (Raise (HTTPException 404 "Email not found"), s')
      ∧ ∀ s'', EMAIL_TO_NAME s'' !! normalize raw = None →
               (verify_email E' raw s'').1 = (verify_email E' raw s').1.
Proof.
  apply (startup_without_columns
           (Sample.surroundings Sample.no_variables Sample.roster_no_email [])
           Sample.roster_no_email).
  - reflexivity.
  - left. intros c Hc.
    repeat (apply elem_of_cons in Hc as [->|Hc]; [reflexivity|]).
    by apply elem_of_nil in Hc.
Defined.

Section Load.
Context (E : env) (cols : list string) (ec nc : string).

Lemma row_get_length (row : list cell) l :
  length row = length cols →
  length (row_get cols row l) = length (filter (λ c, c = l) cols).
Proof.
  unfold row_get. rewrite length_map. clear ec nc.
  revert row. induction cols as [|c cs IH]; intros [|x row] Hlen;
    try done.
  injection Hlen as Hlen. simpl zip.
  destruct (decide (c = l)) as [->|Hne].
  - rewrite !filter_cons_True by done. simpl. by rewrite IH.
  - rewrite !filter_cons_False by done. by apply IH.
Qed.

Lemma load_row_readable row s :
  readable E cols ec nc row →
  ∃ s', load_row E cols ec nc row s = (Ok tt, s')
        ∧ EMAIL_TO_NAME s' =
            write_entry (EMAIL_TO_NAME s) (row_entry E cols ec nc row)
        ∧ log s' = log s ∧ files s' = files s
        ∧ smtp_calls s' = smtp_calls s.
Proof.
  intros [[c Hc] [nm Hnm]]. unfold load_row, row_entry. rewrite Hc, Hnm.
  destruct c as [|v]; by eexists.
Qed.

Lemma for_each_readable rws s :
  Forall (readable E cols ec nc) rws →
  ∃ s', for_each rws (load_row E cols ec nc) s = (Ok tt, s')
        ∧ EMAIL_TO_NAME s' =
            foldl write_entry (EMAIL_TO_NAME s)
              (map (row_entry E cols ec nc) rws)
        ∧ log s' = log s ∧ files s' = files s
        ∧ smtp_calls s' = smtp_calls s.
Proof.
  intros H. revert s. induction H as [|row rws Hrow _ IH]; intros s.
  - by eexists.
  - destruct (load_row_readable row s Hrow) as (s1 & H1 & Hi & Hl & Hf & Hc).
    destruct (IH s1) as (s2 & H2 & Hi2 & Hl2 & Hf2 & Hc2).
    exists s2. simpl. unfold bind. rewrite H1, H2.
    rewrite Hi2, Hi, Hl2, Hl, Hf2, Hf, Hc2, Hc. done.
Qed.

Lemma foldl_write_untouched (es : list (option (string * string))) m k :
  (∀ v, Some (k, v) ∉ es) →
  foldl write_entry m es !! k = m !! k.
Proof.
  revert m. induction es as [|[[k' v']|] es IH]; intros m H; [done|..].
  - simpl. rewrite IH by (intros v Hv; eapply H, list_elem_of_further, Hv).
    apply lookup_insert_ne. intros ->. eapply H, list_elem_of_here.
  - simpl. apply IH. intros v Hv. eapply H, list_elem_of_further, Hv.
Qed.

Lemma foldl_write_last (es : list (option (string * string))) m (i : nat) k v :
  es !! i = Some (Some (k, v)) →
  (∀ (j : nat) v', (i < j)%nat → es !! j ≠ Some (Some (k, v'))) →
  foldl write_entry m es !! k = Some v.
Proof.
  revert m i. induction es as [|e es IH]; intros m i Hi Hlater; [done|].
  destruct i as [|i].
  - injection Hi as ->. simpl. rewrite foldl_write_untouched.
    + apply lookup_insert_eq.
    + intros v' [j Hj]%list_elem_of_lookup.
      apply (Hlater (S j) v'); [lia|done].
  - simpl. apply (IH _ i Hi). intros j v' Hij.
    apply (Hlater (S j) v'). lia.
Qed.

End Load.

Lemma contains_nonempty sub c :
  sub ≠ EmptyString → PyStr.contains sub (PyStr.lower c) = true →
  PyStr.truthy c = true.
Proof. intros Hsub. destruct c; [by destruct sub|done]. Qed.

Lemma shaped_readable E cols ec nc row :
  length (filter (λ c, c = ec) cols) = 1%nat →
  nc ∈ cols →
  length row = length cols →
  readable E cols ec nc row.
Proof.
  intros Hec Hnc Hlen. split.
  - pose proof (row_get_length cols row ec Hlen) as H. rewrite Hec in H.
    destruct (row_get cols row ec) as [|c [|??]]; try done. by exists c.
  - pose proof (row_get_length cols row nc Hlen) as H.
    unfold display_name.
    destruct (row_get cols row nc) as [|c [|??]]; [|by eexists..].
    assert (nc ∈ filter (λ c, c = nc) cols) as Hin
      by (by apply list_elem_of_filter).
    destruct (filter (λ c, c = nc) cols); [by apply elem_of_nil in Hin|done].
Qed.

(** C2, as stated, fails: a header in which two labels read [email] once
    trimmed has discoverable address and name columns, and both its rows
    carry the address [a@x.com]; the load stops at the first row with an
    error that is caught and logged, and the index stays empty. *)
Lemma startup_two_email_labels_empty_index :
  let E := Sample.surroundings Sample.no_variables
             Sample.roster_two_email_labels [] in
  let cols := map PyStr.strip (columns Sample.roster_two_email_labels) in
  find_col "email" cols = Some "email"
  ∧ find_col "name" cols = Some "name"
  ∧ row_get cols [Val "a@x.com"; Val "b@x.com"; Val "Alice"] "email"
    = [Val "a@x.com"; Val "b@x.com"]
  ∧ EMAIL_TO_NAME (startup_event E initial_state).2 !! "a@x.com" = None
  ∧ log (startup_event E initial_state).2
    = [(ERROR,
        "Error loading CSV: The truth value of a Series is ambiguous.")].
Proof. vm_compute. repeat split. Qed.

(** C2, amended.  For every roster whose header has an address and a name
    column and whose address label, once trimmed, is carried by a single
    column, the load ends normally and, for every row holding an address
    that no later row repeats up to normalisation, the index maps the
    normalised address to the display name of that row: of several rows
    with the same normalised address the last one wins, silently.
    [verify_email] on any input with that normal form returns this name. *)
Theorem startup_last_row_wins (E : env) (df : DataFrame) (ec nc : string) :
  let cols := map PyStr.strip (columns df) in
  csv E = Some (Ok df) →
  find_col "email" cols = Some ec →
  find_col "name" cols = Some nc →
  length (filter (λ c, c = ec) cols) = 1%nat →
  Forall (λ row, length row = length cols) (rows df) →
  ∃ s', startup_event E initial_state = (Ok tt, s')
    ∧ log s' =
        [(INFO, "Loaded " +:+ str_Z (Z.of_nat (size (EMAIL_TO_NAME s')))
                +:+ " records.")]
    ∧ ∀ (i : nat) row v,
        rows df !! i = Some row →
        row_get cols row ec = [Val v] →
        (∀ (j : nat) row' v',
           (i < j)%nat → rows df !! j = Some row' →
           row_get cols row' ec = [Val v'] → normalize v' ≠ normalize v) →
        ∃ nm, display_name E cols nc row = Ok nm
          ∧ EMAIL_TO_NAME s' !! normalize v = Some nm
          ∧ ∀ E' raw, normalize raw = normalize v →
              ∃ b s'', verify_email E' raw s' =
                (Ok {| valid := true; name := nm; has_submitted := b |}, s'').
Proof.
  intros cols Hcsv Hec Hnc Huniq Hshape.
  destruct (find_col_Some _ _ _ Hec) as [_ Hec'].
  destruct (find_col_Some _ _ _ Hnc) as [Hnc_in Hnc'].
  assert (Forall (readable E cols ec nc) (rows df)) as Hread.
  { eapply Forall_impl; [exact Hshape|]. intros row Hrow.
    by apply shaped_readable. }
  destruct (for_each_readable E cols ec nc (rows df) initial_state Hread)
    as (s1 & H1 & Hidx & Hlog & Hfiles & Hcalls).
  eexists. split; [|split].
  - unfold startup_event, try_except, bind, lift. rewrite Hcsv.
    fold cols. rewrite Hec, Hnc.
    rewrite (contains_nonempty "email" ec), (contains_nonempty "name" nc)
      by done.
    change (true && true) with true. cbv beta iota. rewrite H1.
    unfold get_index, logger. reflexivity.
  - simpl. by rewrite Hlog.
  - simpl. intros i row v Hi Hv Hlater.
    destruct (Forall_lookup_1 _ _ _ _ Hread Hi) as [_ [nm Hnm]].
    exists nm. split; [done|].
    assert (EMAIL_TO_NAME s1 !! normalize v = Some nm) as Hlook.
    { rewrite Hidx. apply (foldl_write_last _ _ i).
      - rewrite list_lookup_fmap, Hi. simpl.
        unfold row_entry. by rewrite Hv, Hnm.
      - intros j v' Hij Hj. rewrite list_lookup_fmap in Hj.
        destruct (rows df !! j) as [row'|] eqn:Hrow'; [|done].
        simpl in Hj. injection Hj as Hj. unfold row_entry in Hj.
        destruct (row_get cols row' ec) as [|[|w] [|??]] eqn:Hw; try done.
        destruct (display_name E cols nc row'); [|done].
        injection Hj as Hk _.
        by apply (Hlater j row' w Hij Hrow' Hw). }
    split; [exact Hlook|]. intros E' raw Hraw.
    pose proof (verify_email_lookup E' raw
                  {| EMAIL_TO_NAME := EMAIL_TO_NAME s1;
                     log := (log s1 ++
                       [(INFO, "Loaded " +:+
                               str_Z (Z.of_nat (size (EMAIL_TO_NAME s1)))
                               +:+ " records.")])%list;
                     files := files s1; smtp_calls := smtp_calls s1 |}) as H.
    simpl in H. rewrite Hraw, Hlook in H. exact H.
Qed.

Lemma startup_last_row_wins_witness :
  let cols := map PyStr.strip (columns Sample.roster) in
  ∃ s', startup_event Sample.plain initial_state = (Ok tt, s')
    ∧ log s' =
        [(INFO, "Loaded " +:+ str_Z (Z.of_nat (size (EMAIL_TO_NAME s')))
                +:+ " records.")]
    ∧ ∀ (i : nat) row v,
        rows Sample.roster !! i = Some row →
        row_get cols row "Email" = [Val v] →
        (∀ (j : nat) row' v',
           (i < j)%nat → rows Sample.roster !! j = Some row' →
           row_get cols row' "Email" = [Val v'] →
           normalize v' ≠ normalize v) →
        ∃ nm, display_name Sample.plain cols "Full Name" row = Ok nm
          ∧ EMAIL_TO_NAME s' !! normalize v = Some nm
          ∧ ∀ E' raw, normalize raw = normalize v →
              ∃ b s'', verify_email E' raw s' =
                (Ok {| valid := true; name := nm; has_submitted := b |}, s'').
Proof.
  apply (startup_last_row_wins Sample.plain Sample.roster "Email" "Full Name").
  - reflexivity.
  - reflexivity.
  - reflexivity.
  - reflexivity.
  - repeat constructor.
Defined.

(** On the sample roster the two rows for Alice collapse to one key, which
    maps to the name of the later row. *)
Example startup_sample_roster :
  map_to_list (EMAIL_TO_NAME (startup_event Sample.plain initial_state).2)
  = [("alice@x.com", "Alice Two")].
Proof. reflexivity. Qed.

(** ** Admin statistics *)

Section Stats.

Abbreviation write_count :=
  (λ (m : gmap Z nat) (kv : Z * nat), <[kv.1 := kv.2]> m).

Abbreviation histogram_init :=
  (<[1 := 0%nat]> (<[2 := 0%nat]> (<[3 := 0%nat]>
     (<[4 := 0%nat]> (<[5 := 0%nat]> (∅ : gmap Z nat)))))).

Abbreviation occurrences k l := (length (filter (λ v : Z, v = k) l)).

Lemma histogram_init_lookup k :
  histogram_init !! k = if decide (1 ≤ k ≤ 5) then Some 0%nat else None.
Proof.
  destruct (decide (k = 1)) as [->|?]; [done|].
  destruct (decide (k = 2)) as [->|?]; [done|].
  destruct (decide (k = 3)) as [->|?]; [done|].
  destruct (decide (k = 4)) as [->|?]; [done|].
  destruct (decide (k = 5)) as [->|?]; [done|].
  rewrite !lookup_insert_ne, lookup_empty by done.
  case_decide; [lia|done].
Qed.

Lemma foldl_write_count (f : Z → nat) ks (m : gmap Z nat) k :
  foldl write_count m (map (λ k, (k, f k)) ks) !! k =
  if decide (k ∈ ks) then Some (f k) else m !! k.
Proof.
  revert m. induction ks as [|k0 ks IH]; intros m; simpl.
  - done.
  - rewrite IH. destruct (decide (k ∈ ks)) as [Hin|Hnin].
    + rewrite decide_True; [done|by apply list_elem_of_further].
    + destruct (decide (k = k0)) as [->|Hne].
      * rewrite lookup_insert_eq.
        rewrite decide_True; [done|apply list_elem_of_here].
      * rewrite lookup_insert_ne by done.
        rewrite decide_False; [done|].
        intros [?|?]%elem_of_cons; done.
Qed.

Lemma occurrences_absent k (l : list Z) : k ∉ l → occurrences k l = 0%nat.
Proof.
  intros Hk. induction l as [|x l IH]; [done|].
  rewrite filter_cons_False.
  - apply IH. intros H. apply Hk. by apply list_elem_of_further.
  - intros ->. apply Hk, list_elem_of_here.
Qed.

Lemma rating_column_enriched (data : list item) (f : item → option string) :
  rating_column (map (λ it, (it, f it)) data) = omap item_rating data.
Proof.
  unfold rating_column. induction data as [|it data IH]; [done|].
  simpl. destruct (item_rating it); [f_equal|]; exact IH.
Qed.

Lemma no_column_no_ratings (d : list (item * option string)) :
  existsb (λ r, bool_decide (is_Some (item_rating r.1))) d = false →
  rating_column d = [].
Proof.
  unfold rating_column. induction d as [|[it n] d IH]; [done|].
  simpl. intros [H1 H2]%orb_false_iff.
  destruct (item_rating it); [|exact (IH H2)].
  rewrite bool_decide_eq_false in H1. destruct H1. by eexists.
Qed.

Lemma column_some_ratings (d : list (item * option string)) :
  existsb (λ r, bool_decide (is_Some (item_rating r.1))) d = true →
  rating_column d ≠ [].
Proof.
  unfold rating_column. induction d as [|[it n] d IH]; [done|].
  simpl. intros [H1|H2]%orb_true_iff.
  - rewrite bool_decide_eq_true in H1. by destruct H1 as [r ->].
  - destruct (item_rating it); [done|]. exact (IH H2).
Qed.

(** The aggregate of a list of records, field by field. *)
Lemma aggregate_fields (d : list (item * option string)) :
  let ratings := rating_column d in
  total_feedback (aggregate d) = length d
  ∧ average_rating (aggregate d) =
      match ratings with
      | [] => PrimFloat.zero
      | _ => round2 (mean ratings)
      end
  ∧ ∀ k, rating_counts (aggregate d) !! k =
         if decide (k ∈ ratings ∨ 1 ≤ k ≤ 5)
         then Some (occurrences k ratings) else None.
Proof.
  intros ratings.
  assert (rating_column d = ratings) as Hr by done. clearbody ratings.
  unfold aggregate.
  destruct (negb (df_empty d)
            && existsb (λ r, bool_decide (is_Some (item_rating r.1))) d)
    eqn:Hc; simpl; rewrite ?Hr.
  - apply andb_true_iff in Hc as [_ Hc].
    pose proof (column_some_ratings d Hc) as Hne. rewrite Hr in Hne.
    split; [done|]. split; [by destruct ratings|].
    intros k. unfold value_counts.
    rewrite (foldl_write_count (λ k, occurrences k ratings)).
    rewrite histogram_init_lookup.
    destruct (decide (k ∈ remove_dups ratings)) as [Hin|Hnin].
    + rewrite decide_True; [done|]. left. by apply elem_of_remove_dups.
    + assert (k ∉ ratings) as Hk
        by (intros H; by apply Hnin, elem_of_remove_dups).
      case_decide as H15.
      * rewrite decide_True by (by right).
        by rewrite occurrences_absent.
      * rewrite decide_False; [done|]. by intros [?|?].
  - assert (ratings = []) as ->.
    { rewrite <-Hr. apply andb_false_iff in Hc as [Hc|Hc].
      - destruct d; [done|discriminate].
      - by apply no_column_no_ratings. }
    split; [done|]. split; [done|].
    intros k. rewrite histogram_init_lookup.
    case_decide as H15.
    + rewrite decide_True by (by right). done.
    + rewrite decide_False; [done|].
      intros [H|?]; [by apply elem_of_nil in H|done].
Qed.

End Stats.

(** C9, as stated, fails: one record with rating 7 adds the key 7 to the
    histogram, whose key set is then not {1,2,3,4,5}. *)
Lemma admin_stats_key_outside_1_to_5 :
  let E := Sample.surroundings Sample.store_variables Sample.roster
             (Sample.rated [7]) in
  ∃ st, get_admin_stats E initial_state = (Ok st, initial_state)
        ∧ rating_counts st !! 7 = Some 1%nat
        ∧ dom (rating_counts st) ≠ ({[1; 2; 3; 4; 5]} : gset Z).
Proof.
  eexists. split; [reflexivity|]. split; [reflexivity|].
  intros H.
  assert (7 ∈ ({[1; 2; 3; 4; 5]} : gset Z)) as H7.
  { rewrite <-H. apply elem_of_dom. by eexists. }
  set_solver.
Qed.

(** C9, amended.  When the store is configured and answers with a list of
    records, [get_admin_stats] returns the number of records, the mean of
    the ratings present rounded to two decimals (0 when there is none),
    and a histogram that gives, for each of 1..5 and for every other
    rating value present, its number of occurrences: the key set is
    {1,2,3,4,5} together with the rating values present.  For ratings
    [5,5,4,3,5] the average is 4.4, the binary64 quotient of 44 by 10,
    and the counts are {1:0, 2:0, 3:1, 4:1, 5:3}. *)
Theorem admin_stats_aggregate (E : env) (s : state) (text : string)
  (data : list item) :
  store_configured E = true →
  feedback_all E = Ok (200, text, data) →
  let ratings := omap item_rating data in
  (∃ st, get_admin_stats E s = (Ok st, s)
     ∧ total_feedback st = length data
     ∧ average_rating st =
         match ratings with
         | [] => PrimFloat.zero
         | _ => round2 (mean ratings)
         end
     ∧ (∀ k, rating_counts st !! k =
             if decide (k ∈ ratings ∨ 1 ≤ k ≤ 5)
             then Some (length (filter (λ v, v = k) ratings)) else None)
     ∧ dom (rating_counts st) = {[1; 2; 3; 4; 5]} ∪ list_to_set ratings)
  ∧ (∃ st, get_admin_stats
             (Sample.surroundings Sample.store_variables Sample.roster
                (Sample.rated [5; 5; 4; 3; 5])) initial_state
           = (Ok st, initial_state)
       ∧ total_feedback st = 5%nat
       ∧ average_rating st = PrimFloat.div (float_of_Z 44) (float_of_Z 10)
       ∧ rating_counts st =
           <[1 := 0%nat]> (<[2 := 0%nat]> (<[3 := 1%nat]>
             (<[4 := 1%nat]> (<[5 := 3%nat]> ∅))))).
Proof.
  intros Hcfg Hall ratings. split.
  - unfold get_admin_stats, get_all_feedback, bind, lift, get_index, ret.
    rewrite Hcfg, Hall. simpl.
    eexists. split; [reflexivity|].
    match goal with
    | |- context [aggregate ?d] =>
        destruct (aggregate_fields d) as (Ht & Ha & Hk)
    end.
    rewrite rating_column_enriched in Ha, Hk. fold ratings in Ha, Hk.
    split; [by rewrite Ht, length_map|]. split; [exact Ha|].
    split; [exact Hk|].
    apply set_eq. intros k. rewrite elem_of_dom, Hk.
    rewrite elem_of_union, elem_of_list_to_set.
    case_decide as Hd.
    + split; [intros _|by eexists].
      destruct Hd as [?|?]; [by right|left].
      rewrite !elem_of_union, !elem_of_singleton. lia.
    + split; [by intros [? ?]|]. intros [H|H]; destruct Hd; [right|by left].
      rewrite !elem_of_union, !elem_of_singleton in H. lia.
  - eexists. split; [reflexivity|]. split; [reflexivity|].
    split; [vm_compute; reflexivity|reflexivity].
Qed.

Lemma admin_stats_aggregate_witness :
  let E := Sample.surroundings Sample.store_variables Sample.roster
             (Sample.rated [5; 5; 4; 3; 5]) in
  let ratings := omap item_rating (Sample.rated [5; 5; 4; 3; 5]) in
  (∃ st, get_admin_stats E initial_state = (Ok st, initial_state)
     ∧ total_feedback st = length (Sample.rated [5; 5; 4; 3; 5])
     ∧ average_rating st =
         match ratings with
         | [] => PrimFloat.zero
         | _ => round2 (mean ratings)
         end
     ∧ (∀ k, rating_counts st !! k =
             if decide (k ∈ ratings ∨ 1 ≤ k ≤ 5)
             then Some (length (filter (λ v, v = k) ratings)) else None)
     ∧ dom (rating_counts st) = {[1; 2; 3; 4; 5]} ∪ list_to_set ratings)
  ∧ (∃ st, get_admin_stats
             (Sample.surroundings Sample.store_variables Sample.roster
                (Sample.rated [5; 5; 4; 3; 5])) initial_state
           = (Ok st, initial_state)
       ∧ total_feedback st = 5%nat
       ∧ average_rating st = PrimFloat.div (float_of_Z 44) (float_of_Z 10)
       ∧ rating_counts st =
           <[1 := 0%nat]> (<[2 := 0%nat]> (<[3 := 1%nat]>
             (<[4 := 1%nat]> (<[5 := 3%nat]> ∅))))).
Proof.
  apply (admin_stats_aggregate
           (Sample.surroundings Sample.store_variables Sample.roster
              (Sample.rated [5; 5; 4; 3; 5]))
           initial_state "[]" (Sample.rated [5; 5; 4; 3; 5]));
    reflexivity.
Defined.

(** The average is rounded in binary64: the mean of thirty-one ratings 1
    and nine ratings 2 is the binary64 number next above 1.225, and the
    average reported is 1.23, the quotient of 123 by 100. *)
Example average_rounds_in_binary64 :
  round2 (mean (repeat 1 31 ++ repeat 2 9))
  = PrimFloat.div (float_of_Z 123) (float_of_Z 100).
Proof. vm_compute. reflexivity. Qed.

(** ** What the normal form does not depend on *)

Section Insensitive.
Import PyStr PyStrFacts.
















End Insensitive.



(** * Further properties of the code *)

(** ** Normal forms *)

Section NormalForm.
Import PyStr PyStrFacts.

Lemma length_append a b :
  String.length (a +:+ b) = (String.length a + String.length b)%nat.
Proof.
  induction a as [|c a IH]; [done|]. rewrite append_cons. simpl. by rewrite IH.
Qed.

Lemma unspace_remove_whitespace t :
  (∀ c, c ∈ list_ascii_of_string t → isspace c = true → c = space) →
  unspace (lower t) = remove_whitespace (lower t).
Proof.
  induction t as [|c t IH]; intros H; [done|].
  simpl lower. rewrite unspace_cons. simpl remove_whitespace.
  rewrite eqb_space_lower_char, isspace_lower_char.
  assert (unspace (lower t) = remove_whitespace (lower t)) as IH'.
  { apply IH. intros d Hd. apply H. simpl. by apply list_elem_of_further. }
  destruct (isspace c) eqn:Hc.
  - rewrite (H c) by (done || apply list_elem_of_here). exact IH'.
  - rewrite isspace_eqb_space by done. by rewrite IH'.
Qed.

End NormalForm.

(** X1.  A normal form contains no space character, has no white space
    at either end, and is in lower case. *)
Theorem normalize_normal_form (x : string) :
  (PyStr.space ∉ list_ascii_of_string (normalize x))
  ∧ PyStr.strip (normalize x) = normalize x
  ∧ PyStr.lower (normalize x) = normalize x.
Proof.
  split; [|split].
  - unfold normalize. rewrite chars_unspace.
    intros [H _]%list_elem_of_filter. by apply H.
  - destruct (normalize_head_last x). by apply PyStrFacts.strip_id.
  - unfold normalize.
    by rewrite PyStrFacts.lower_unspace, PyStrFacts.lower_idem.
Qed.

(** X2.  On an input whose only interior white space is the space
    character, the normal form is the one the specification words: trim,
    lower-case, remove all white space. *)
Theorem normalize_agrees_without_other_whitespace (x : string) :
  (∀ c, c ∈ list_ascii_of_string (PyStr.strip x) →
        PyStr.isspace c = true → c = PyStr.space) →
  normalize x = normalize_spec x.
Proof. intros H. by apply unspace_remove_whitespace. Qed.

Lemma normalize_agrees_without_other_whitespace_witness :
  normalize " Al ice@X.com " = normalize_spec " Al ice@X.com ".
Proof.
  apply normalize_agrees_without_other_whitespace.
  intros c Hc.
  repeat (apply elem_of_cons in Hc as [->|Hc]; [vm_compute; congruence|]).
  by apply elem_of_nil in Hc.
Defined.

(** ** The roster load, whatever the file holds *)

Section LoadAny.
Context (E : env) (cols : list string) (ec nc : string).

Lemma display_name_trimmed row nm :
  display_name E cols nc row = Ok nm → PyStr.strip nm = nm.
Proof.
  unfold display_name.
  destruct (row_get cols row nc) as [|c [|??]]; intros H; [done|..];
    injection H as <-; apply PyStrFacts.strip_idem.
Qed.

Lemma index_ok_insert index v nm :
  index_ok index → PyStr.strip nm = nm →
  index_ok (<[normalize v := nm]> index).
Proof.
  intros Hok Hnm k w. destruct (decide (k = normalize v)) as [->|Hne].
  - rewrite lookup_insert_eq. intros [= <-].
    split; [apply normalize_idem|done].
  - rewrite lookup_insert_ne by done. apply Hok.
Qed.

(** A turn of the loop, with any outcome, touches only the dictionary and
    keeps its invariant. *)
Lemma load_row_any row s r s' :
  load_row E cols ec nc row s = (r, s') →
  files s' = files s ∧ smtp_calls s' = smtp_calls s ∧ log s' = log s
  ∧ (index_ok (EMAIL_TO_NAME s) → index_ok (EMAIL_TO_NAME s')).
Proof.
  unfold load_row, bind, lift, raise, ret, set_index.
  destruct (row_get cols row ec) as [|[|v] [|??]];
    try (intros [= ? ?]; subst; by auto).
  destruct (display_name E cols nc row) as [nm|e] eqn:Hnm;
    intros [= ? ?]; subst; [|by auto].
  split; [done|]. split; [done|]. split; [done|]. simpl. intros Hok.
  apply index_ok_insert; [done|]. by eapply display_name_trimmed.
Qed.

Lemma for_each_any rws s r s' :
  for_each rws (load_row E cols ec nc) s = (r, s') →
  files s' = files s ∧ smtp_calls s' = smtp_calls s ∧ log s' = log s
  ∧ (index_ok (EMAIL_TO_NAME s) → index_ok (EMAIL_TO_NAME s')).
Proof.
  revert s. induction rws as [|row rws IH]; intros s; simpl.
  - intros [= ? ?]; subst. by auto.
  - unfold bind.
    destruct (load_row E cols ec nc row s) as [[[]|e] s1] eqn:H1.
    + intros H2. apply IH in H2 as (Hf & Hc & Hl & Hi).
      apply load_row_any in H1 as (Hf1 & Hc1 & Hl1 & Hi1).
      rewrite Hf, Hc, Hl, Hf1, Hc1, Hl1.
      split; [done|]. split; [done|]. split; [done|]. auto.
    + intros [= ? ?]; subst. by apply load_row_any in H1.
Qed.

End LoadAny.

Lemma startup_event_any E s :
  ∃ s', startup_event E s = (Ok tt, s')
        ∧ files s' = files s ∧ smtp_calls s' = smtp_calls s
        ∧ (∃ line, log s' = (log s ++ [line])%list)
        ∧ (index_ok (EMAIL_TO_NAME s) → index_ok (EMAIL_TO_NAME s')).
Proof.
  unfold startup_event, try_except, bind, lift.
  destruct (csv E) as [[df|e]|]; [| |].
  - set (cols := map PyStr.strip (columns df)).
    destruct (find_col "email" cols) as [ec|];
      [|eexists; split; [reflexivity|]; simpl; eauto 10].
    destruct (find_col "name" cols) as [nc|];
      [|eexists; split; [reflexivity|]; simpl; eauto 10].
    destruct (PyStr.truthy ec && PyStr.truthy nc);
      [|eexists; split; [reflexivity|]; simpl; eauto 10].
    destruct (for_each (rows df) (load_row E cols ec nc) s)
      as [[[]|e] s1] eqn:H1;
      apply for_each_any in H1 as (Hf & Hc & Hl & Hi);
      (eexists; split; [reflexivity|]); simpl;
      rewrite Hf, Hc, Hl; eauto 10.
  - eexists; split; [reflexivity|]; simpl; eauto 10.
  - eexists; split; [reflexivity|]; simpl; eauto 10.
Qed.

(** X3.  The start-up load never raises, whatever the roster file is
    (absent, unreadable, without the columns, or failing half-way): it
    returns normally, adds exactly one line to the log, and touches
    neither the generated files nor the mail relay. *)
Theorem startup_never_raises (E : env) (s : state) :
  ∃ s', startup_event E s = (Ok tt, s')
        ∧ (∃ line, log s' = (log s ++ [line])%list)
        ∧ files s' = files s
        ∧ smtp_calls s' = smtp_calls s.
Proof.
  destruct (startup_event_any E s) as (s' & H & Hf & Hc & Hl & _).
  by exists s'.
Qed.

(** X4.  The load keeps the invariant of the roster dictionary: if every
    key is its own normal form and every name is trimmed before, so it is
    after, whatever the file holds. *)
Theorem startup_keys_normal_names_trimmed (E : env) (s : state) :
  (∀ k v, EMAIL_TO_NAME s !! k = Some v →
          normalize k = k ∧ PyStr.strip v = v) →
  ∀ k v, EMAIL_TO_NAME (startup_event E s).2 !! k = Some v →
         normalize k = k ∧ PyStr.strip v = v.
Proof.
  intros Hok.
  destruct (startup_event_any E s) as (s' & H & _ & _ & _ & Hi).
  rewrite H. simpl. by apply Hi.
Qed.

Lemma startup_keys_normal_names_trimmed_witness :
  normalize "alice@x.com" = "alice@x.com"
  ∧ PyStr.strip "Alice Two" = "Alice Two".
Proof.
  apply (startup_keys_normal_names_trimmed Sample.plain initial_state).
  - intros k v H. simpl in H. rewrite lookup_empty in H. discriminate H.
  - reflexivity.
Defined.

Lemma foldl_write_is_Some (es : list (option (string * string))) m k :
  is_Some (foldl write_entry m es !! k)
  ↔ is_Some (m !! k) ∨ ∃ v, Some (k, v) ∈ es.
Proof.
  revert m. induction es as [|[[k' v']|] es IH]; intros m; simpl.
  - split; [by left|]. intros [H|[v H]]; [done|by apply elem_of_nil in H].
  - rewrite IH. split.
    + intros [H|[v H]].
      * destruct (decide (k' = k)) as [->|Hne].
        -- right. exists v'. apply list_elem_of_here.
        -- left. by rewrite lookup_insert_ne in H.
      * right. exists v. by apply list_elem_of_further.
    + intros [H|[v H]].
      * left. destruct (decide (k' = k)) as [->|Hne].
        -- rewrite lookup_insert_eq. by eexists.
        -- by rewrite lookup_insert_ne.
      * apply elem_of_cons in H as [[= -> ->]|H].
        -- left. rewrite lookup_insert_eq. by eexists.
        -- right. by exists v.
  - rewrite IH. split.
    + intros [H|[v H]]; [by left|]. right. exists v.
      by apply list_elem_of_further.
    + intros [H|[v H]]; [by left|]. right. exists v.
      by apply elem_of_cons in H as [?|H].
Qed.

(** X5.  For a roster with an address and a name column, the address
    label carried by a single column: the keys of the index built on a
    fresh process are exactly the normal forms of the address cells that
    are present, a blank cell included; rows whose address cell is missing
    add nothing, and no present address is dropped. *)
Theorem startup_key_set (E : env) (df : DataFrame) (ec nc : string) :
  let cols := map PyStr.strip (columns df) in
  csv E = Some (Ok df) →
  find_col "email" cols = Some ec →
  find_col "name" cols = Some nc →
  length (filter (λ c, c = ec) cols) = 1%nat →
  Forall (λ row, length row = length cols) (rows df) →
  ∀ k, is_Some (EMAIL_TO_NAME (startup_event E initial_state).2 !! k)
       ↔ ∃ row v, row ∈ rows df ∧ row_get cols row ec = [Val v]
                  ∧ normalize v = k.
Proof.
  intros cols Hcsv Hec Hnc Huniq Hshape k.
  destruct (find_col_Some _ _ _ Hec) as [_ Hec'].
  destruct (find_col_Some _ _ _ Hnc) as [Hnc_in Hnc'].
  assert (Forall (readable E cols ec nc) (rows df)) as Hread.
  { eapply Forall_impl; [exact Hshape|]. intros row Hrow.
    by apply shaped_readable. }
  destruct (for_each_readable E cols ec nc (rows df) initial_state Hread)
    as (s1 & H1 & Hidx & _).
  assert (EMAIL_TO_NAME (startup_event E initial_state).2
          = EMAIL_TO_NAME s1) as ->.
  { unfold startup_event, try_except, bind, lift. rewrite Hcsv.
    fold cols. rewrite Hec, Hnc.
    rewrite (contains_nonempty "email" ec), (contains_nonempty "name" nc)
      by done.
    change (true && true) with true. cbv beta iota. by rewrite H1. }
  rewrite Hidx, foldl_write_is_Some. simpl. rewrite lookup_empty.
  split.
  - intros [[? [=]]|[v Hv]].
    apply list_elem_of_In, in_map_iff in Hv as (row & Hrow & Hin).
    apply list_elem_of_In in Hin. exists row.
    unfold row_entry in Hrow.
    destruct (row_get cols row ec) as [|[|w] [|??]]; try done.
    destruct (display_name E cols nc row); [|done].
    injection Hrow as <- _. by exists w.
  - intros (row & v & Hin & Hv & <-). right.
    destruct (proj1 (Forall_forall _ _) Hread row Hin) as [_ [nm Hnm]].
    exists nm. apply list_elem_of_In, in_map_iff. exists row.
    split; [|by apply list_elem_of_In].
    unfold row_entry. by rewrite Hv, Hnm.
Qed.

Lemma startup_key_set_witness :
  is_Some (EMAIL_TO_NAME (startup_event Sample.plain initial_state).2
             !! "alice@x.com")
  ↔ ∃ row v, row ∈ rows Sample.roster
             ∧ row_get (map PyStr.strip (columns Sample.roster)) row "Email"
               = [Val v]
             ∧ normalize v = "alice@x.com".
Proof.
  apply (startup_key_set Sample.plain Sample.roster "Email" "Full Name").
  - reflexivity.
  - reflexivity.
  - reflexivity.
  - reflexivity.
  - repeat constructor.
Defined.

(** ** Rendering, beyond the text position *)

Ltac render_cases E H :=
  repeat match type of H with
         | context [match ?b with _ => _ end] =>
             match b with
             | template_exists E => destruct (template_exists E) eqn:?
             | font_exists E => destruct (font_exists E) eqn:?
             | template_size E =>
                 destruct (template_size E) as [[? ?]|?] eqn:?
             | draw_image E => destruct (draw_image E) as [[]|?] eqn:?
             | register_font E => destruct (register_font E) as [[]|?] eqn:?
             | stringWidth E ?n ?f ?z => destruct (stringWidth E n f z) eqn:?
             | save E ?q => destruct (save E q) as [[]|?] eqn:?
             end; simpl in H
         end.

(** Whatever its outcome, a render leaves the roster, the mail relay and
    the files at other paths alone; the exception of a render that raises
    is the one of the measurement or of the save. *)
Lemma create_certificate_frame E nm s r s' :
  create_certificate E nm s = (r, s') →
  EMAIL_TO_NAME s' = EMAIL_TO_NAME s
  ∧ smtp_calls s' = smtp_calls s
  ∧ match r with
    | Ok p => p = path_join (GENERATED_DIR E) (certificate_filename nm)
              ∧ ∃ doc, files s' = <[p := doc]> (files s)
    | Raise e =>
        (∀ q, q ≠ path_join (GENERATED_DIR E) (certificate_filename nm) →
              files s' !! q = files s !! q)
        ∧ (stringWidth E nm "Poppins-Bold" 25 = Raise e
           ∨ stringWidth E nm "Helvetica-Bold" 25 = Raise e
           ∨ save E (path_join (GENERATED_DIR E) (certificate_filename nm))
             = Raise e)
    end.
Proof.
  unfold create_certificate, bind, try_except, lift, ret, logger, write_file.
  intros H. render_cases E H;
    injection H as <- <-; simpl;
    (split; [reflexivity|]); (split; [reflexivity|]);
    first [ split; [reflexivity|eexists; reflexivity]
          | split; [reflexivity|]; auto ].
Qed.

(** X6.  Missing or unusable assets never make a render fail: when the
    name can be measured and the file can be saved, a certificate is
    written at the output path although the template cannot be read or
    drawn and the font cannot be registered. *)
Theorem create_certificate_survives_assets (E : env) (nm : string)
  (s : state) :
  (∀ font, ∃ tw, stringWidth E nm font 25 = Ok tw) →
  save E (path_join (GENERATED_DIR E) (certificate_filename nm)) = Ok tt →
  ∃ s', create_certificate E nm s
        = (Ok (path_join (GENERATED_DIR E) (certificate_filename nm)), s')
        ∧ is_Some (files s'
                     !! path_join (GENERATED_DIR E) (certificate_filename nm)).
Proof.
  intros Hw Hsave.
  destruct (create_certificate E nm s) as [[p|e] s'] eqn:H.
  - apply create_certificate_frame in H as (_ & _ & -> & doc & Hf).
    eexists. split; [reflexivity|]. rewrite Hf, lookup_insert_eq. by eexists.
  - apply create_certificate_frame in H as (_ & _ & _ & [H|[H|H]]).
    + destruct (Hw "Poppins-Bold"); congruence.
    + destruct (Hw "Helvetica-Bold"); congruence.
    + congruence.
Qed.

Lemma create_certificate_survives_assets_witness :
  ∃ s', create_certificate Scenario.broken_assets "Jane Doe" initial_state
        = (Ok (path_join (GENERATED_DIR Scenario.broken_assets)
                 (certificate_filename "Jane Doe")), s')
        ∧ is_Some (files s'
                     !! path_join (GENERATED_DIR Scenario.broken_assets)
                          (certificate_filename "Jane Doe")).
Proof.
  apply (create_certificate_survives_assets Scenario.broken_assets).
  - intros font. eexists. reflexivity.
  - reflexivity.
Defined.

(** X7.  A render, whether it succeeds or raises, changes at most the
    file at its own output path: every other generated file, the roster
    and the mail relay are as before. *)
Theorem create_certificate_touches_one_file (E : env) (nm : string)
  (s : state) :
  let out := create_certificate E nm s in
  EMAIL_TO_NAME out.2 = EMAIL_TO_NAME s
  ∧ smtp_calls out.2 = smtp_calls s
  ∧ (∀ q, q ≠ path_join (GENERATED_DIR E) (certificate_filename nm) →
          files out.2 !! q = files s !! q).
Proof.
  intros out. unfold out.
  destruct (create_certificate E nm s) as [r s'] eqn:H.
  apply create_certificate_frame in H as (Hi & Hc & Hr). simpl.
  split; [done|]. split; [done|].
  intros q Hq. destruct r as [p|e].
  - destruct Hr as (-> & doc & ->). by rewrite lookup_insert_ne.
  - destruct Hr as [Hq' _]. by apply Hq'.
Qed.

(** X8.  The page of a rendered certificate has the pixel size of the
    template when the template exists and its size can be read, and is
    landscape A4 (297 mm by 210 mm) otherwise; a background image is drawn
    only if the template exists and can be drawn, and then it is the
    template, placed at the origin and stretched to exactly the page. *)
Theorem create_certificate_page (E : env) (nm : string) (s : state)
  (p : string) (s' : state) :
  create_certificate E nm s = (Ok p, s') →
  ∃ doc, files s' !! p = Some doc
    ∧ (∀ path x y w h, DrawImage path x y w h ∈ ops doc →
         template_exists E = true ∧ draw_image E = Ok tt
         ∧ path = TEMPLATE_PATH E ∧ x = 0%Q ∧ y = 0%Q
         ∧ (w, h) = pagesize doc)
    ∧ (∀ w h, template_exists E = true → template_size E = Ok (w, h) →
              pagesize doc = (inject_Z w, inject_Z h))
    ∧ (template_exists E = false ∨ (∃ e, template_size E = Raise e) →
       pagesize doc = (297 * mm, 210 * mm)%Q).
Proof.
  unfold create_certificate, bind, try_except, lift, ret, logger, write_file.
  intros H. render_cases E H; try discriminate H;
    injection H as <- <-; simpl;
    (eexists; split; [apply lookup_insert_eq|]); simpl;
    (split; [|split]);
    try (intros path x y w h Hin;
         repeat (apply elem_of_cons in Hin as [Hin|Hin];
                 [first [discriminate Hin | by injection Hin as -> -> -> -> ->]|]);
         by apply elem_of_nil in Hin);
    try (intros w h Ht Hs; first [discriminate Ht | congruence]);
    try (intros [Ht|[? Ht]]; first [discriminate Ht | reflexivity]).
Qed.

Lemma create_certificate_page_witness :
  ∃ doc,
    files (create_certificate Scenario.broken_assets "Jane Doe"
             initial_state).2
      !! "/srv/app/generated/certificate_Jane_Doe.pdf" = Some doc
    ∧ (∀ path x y w h, DrawImage path x y w h ∈ ops doc →
         template_exists Scenario.broken_assets = true
         ∧ draw_image Scenario.broken_assets = Ok tt
         ∧ path = TEMPLATE_PATH Scenario.broken_assets ∧ x = 0%Q ∧ y = 0%Q
         ∧ (w, h) = pagesize doc)
    ∧ (∀ w h, template_exists Scenario.broken_assets = true →
              template_size Scenario.broken_assets = Ok (w, h) →
              pagesize doc = (inject_Z w, inject_Z h))
    ∧ (template_exists Scenario.broken_assets = false
       ∨ (∃ e, template_size Scenario.broken_assets = Raise e) →
       pagesize doc = (297 * mm, 210 * mm)%Q).
Proof.
  apply (create_certificate_page Scenario.broken_assets "Jane Doe"
           initial_state).
  reflexivity.
Defined.

(** ** File names *)

Section FileNames.

Lemma contains_char c s :
  PyStr.contains (String c EmptyString) s = true
  ↔ c ∈ list_ascii_of_string s.
Proof.
  induction s as [|d s IH]; [by split; [|intros H%elem_of_nil]|].
  rewrite contains_cons, orb_true_iff, IH. simpl.
  rewrite elem_of_cons. destruct (ascii_dec c d) as [->|Hne].
  - rewrite prefix_nil. tauto.
  - split; [intros [?|?]; [done|by right]|intros [?|?]; [done|by right]].
Qed.

Lemma contains_char_false c s :
  PyStr.contains (String c EmptyString) s = false
  ↔ c ∉ list_ascii_of_string s.
Proof.
  rewrite <-contains_char. by destruct (PyStr.contains _ s).
Qed.

Lemma chars_certificate_filename nm :
  list_ascii_of_string (certificate_filename nm) =
  (list_ascii_of_string "certificate_"
   ++ map (λ c, if Ascii.eqb c PyStr.space then "_"%char else c)
          (list_ascii_of_string nm)
   ++ list_ascii_of_string ".pdf")%list.
Proof.
  unfold certificate_filename.
  by rewrite !chars_app, chars_replace_underscore.
Qed.

Lemma basename_cons c p :
  basename (String c p) =
  if PyStr.contains "/" (String c p) then basename p else String c p.
Proof. reflexivity. Qed.

Lemma basename_no_slash f :
  PyStr.contains "/" f = false → basename f = f.
Proof. destruct f as [|c f]; [done|]. rewrite basename_cons. by intros ->. Qed.

Lemma basename_after_slash a f :
  PyStr.contains "/" f = false → basename (a +:+ "/" +:+ f) = f.
Proof.
  intros Hf.
  assert (PyStr.contains "/" ("/" +:+ f) = true) as Hs.
  { apply contains_char. rewrite chars_app. apply elem_of_app. left.
    apply list_elem_of_here. }
  induction a as [|c a IH].
  - rewrite append_nil_l. change ("/" +:+ f) with (String "/" f) in *.
    rewrite basename_cons, Hs. by apply basename_no_slash.
  - rewrite append_cons, basename_cons.
    pose proof (contains_app_r "/" (String c a) ("/" +:+ f) Hs) as Hc.
    rewrite append_cons in Hc. by rewrite Hc.
Qed.

Lemma certificate_filename_shape_slash nm :
  PyStr.contains "/" (certificate_filename nm) = true →
  PyStr.contains "/" nm = true.
Proof.
  rewrite !contains_char, chars_certificate_filename.
  intros [H|[H|H]%elem_of_app]%elem_of_app.
  - vm_compute in H.
    repeat (apply elem_of_cons in H as [H|H]; [discriminate H|]).
    by apply elem_of_nil in H.
  - apply list_elem_of_In, in_map_iff in H as (c & Hc & Hin).
    apply list_elem_of_In in Hin.
    destruct (Ascii.eqb_spec c PyStr.space); [discriminate Hc|].
    by subst c.
  - vm_compute in H.
    repeat (apply elem_of_cons in H as [H|H]; [discriminate H|]).
    by apply elem_of_nil in H.
Qed.

End FileNames.

(** X9.  The file name of a certificate never contains a space, keeps
    every character of the name that is not a space, and is 16 characters
    longer than the name; it contains a slash only if the name does. *)
Theorem certificate_filename_shape (nm : string) :
  (PyStr.space ∉ list_ascii_of_string (certificate_filename nm))
  ∧ String.length (certificate_filename nm) = (16 + String.length nm)%nat
  ∧ (∀ c, c ≠ PyStr.space → c ∈ list_ascii_of_string nm →
          c ∈ list_ascii_of_string (certificate_filename nm))
  ∧ (PyStr.contains "/" (certificate_filename nm) = true
     ↔ PyStr.contains "/" nm = true).
Proof.
  rewrite !contains_char, chars_certificate_filename.
  split; [|split; [|split]].
  - intros [H|[H|H]%elem_of_app]%elem_of_app.
    + vm_compute in H.
      repeat (apply elem_of_cons in H as [H|H]; [discriminate H|]).
      by apply elem_of_nil in H.
    + apply list_elem_of_In, in_map_iff in H as (c & Hc & _).
      destruct (Ascii.eqb_spec c PyStr.space); [discriminate Hc|congruence].
    + vm_compute in H.
      repeat (apply elem_of_cons in H as [H|H]; [discriminate H|]).
      by apply elem_of_nil in H.
  - unfold certificate_filename. rewrite !length_append.
    assert (∀ s, String.length (PyStr.replace PyStr.space "_" s)
                 = String.length s) as ->; [|simpl; lia].
    induction s as [|c s IH]; [done|]. simpl.
    destruct (Ascii.eqb c PyStr.space);
      rewrite ?append_cons, ?append_nil_l; simpl; by rewrite IH.
  - intros c Hc Hin. apply elem_of_app. right. apply elem_of_app. left.
    apply list_elem_of_In, in_map_iff. exists c.
    split; [|by apply list_elem_of_In].
    destruct (Ascii.eqb_spec c PyStr.space); [done|done].
  - split.
    + rewrite <-chars_certificate_filename, <-!contains_char.
      apply certificate_filename_shape_slash.
    + intros H. apply elem_of_app. right. apply elem_of_app. left.
      apply list_elem_of_In, in_map_iff. exists "/"%char.
      split; [reflexivity|by apply list_elem_of_In].
Qed.

(** ** The certificate endpoints *)

Lemma generate_outcomes (E : env) (raw : string) (s : state) :
  let out := generate_certificate_endpoint E raw s in
  EMAIL_TO_NAME out.2 = EMAIL_TO_NAME s
  ∧ smtp_calls out.2 = smtp_calls s
  ∧ match out.1 with
    | Ok r =>
        media_type r = "application/pdf"
        ∧ filename r = basename (path r)
        ∧ is_Some (files out.2 !! path r)
        ∧ ∃ nm, EMAIL_TO_NAME s !! normalize raw = Some nm
                ∧ nm ≠ EmptyString
                ∧ path r = GENERATED_DIR E +:+ "/" +:+ certificate_filename nm
    | Raise e => ∃ detail, e = HTTPException 500 detail
    end.
Proof.
  intros out. unfold out, generate_certificate_endpoint, try_except, bind,
    get_index, raise, ret, logger.
  destruct (EMAIL_TO_NAME s !! normalize raw) as [nm|] eqn:Hnm; simpl;
    [|by eauto].
  destruct nm as [|c nm]; simpl; [by eauto|].
  destruct (create_certificate E (String c nm) s) as [[p|e] s'] eqn:H;
    apply create_certificate_frame in H as (Hi & Hc & Hr); simpl.
  - destruct Hr as (-> & doc & Hf).
    split; [done|]. split; [done|]. split; [done|]. split; [done|].
    split; [rewrite Hf, lookup_insert_eq; by eexists|].
    eexists. split; [done|]. split; [done|]. by apply join_generated_dir.
  - destruct Hr as [Hf _]. by eauto.
Qed.

(** X10.  [generate_certificate_endpoint] either answers with a PDF file
    response for the certificate of the non-empty roster name of the
    normalised address, written under the output directory, or raises an
    error whose status is 500; it raises no other status, and it never
    changes the roster or calls the mail relay. *)
Theorem generate_certificate_outcomes (E : env) (raw : string) (s : state) :
  let out := generate_certificate_endpoint E raw s in
  EMAIL_TO_NAME out.2 = EMAIL_TO_NAME s
  ∧ smtp_calls out.2 = smtp_calls s
  ∧ match out.1 with
    | Ok r =>
        media_type r = "application/pdf"
        ∧ filename r = basename (path r)
        ∧ is_Some (files out.2 !! path r)
        ∧ ∃ nm, EMAIL_TO_NAME s !! normalize raw = Some nm
                ∧ nm ≠ EmptyString
                ∧ path r = GENERATED_DIR E +:+ "/" +:+ certificate_filename nm
    | Raise e => ∃ detail, e = HTTPException 500 detail
    end.
Proof. apply generate_outcomes. Qed.

(** X11.  When the roster name holds no slash, the download name of the
    file response is [certificate_<name with underscores>.pdf]. *)
Theorem generate_certificate_download_name (E : env) (raw nm : string)
  (s : state) (r : FileResponse) (s' : state) :
  EMAIL_TO_NAME s !! normalize raw = Some nm →
  PyStr.contains "/" nm = false →
  generate_certificate_endpoint E raw s = (Ok r, s') →
  filename r = certificate_filename nm.
Proof.
  intros Hnm Hslash H.
  pose proof (generate_outcomes E raw s) as Hout.
  rewrite H in Hout. simpl in Hout.
  destruct Hout as (_ & _ & _ & -> & _ & nm' & Hnm' & _ & ->).
  rewrite Hnm in Hnm'. injection Hnm' as <-.
  apply basename_after_slash.
  destruct (PyStr.contains "/" (certificate_filename nm)) eqn:Hc; [|done].
  apply certificate_filename_shape_slash in Hc. congruence.
Qed.

Lemma generate_certificate_download_name_witness :
  filename
    {| path := "/srv/app/generated/certificate_Alice_Two.pdf";
       media_type := "application/pdf";
       filename := "certificate_Alice_Two.pdf" |}
  = certificate_filename "Alice Two".
Proof.
  apply (generate_certificate_download_name Sample.plain " Alice@X.com "
           "Alice Two" Scenario.loaded _
           (generate_certificate_endpoint Sample.plain " Alice@X.com "
              Scenario.loaded).2);
    reflexivity.
Defined.

Lemma send_outcomes (E : env) (raw : string) (s : state) :
  let out := send_certificate_endpoint E raw s in
  EMAIL_TO_NAME out.2 = EMAIL_TO_NAME s
  ∧ smtp_calls out.2 = smtp_calls s
  ∧ match EMAIL_TO_NAME s !! normalize raw with
    | None | Some EmptyString =>
        out = (Raise (HTTPException 404 "Not Found"), s)
    | Some nm =>
        match out.1 with
        | Ok r =>
            r = ("sending",
                 (normalize raw,
                  GENERATED_DIR E +:+ "/" +:+ certificate_filename nm))
            ∧ is_Some (files out.2 !! r.2.2)
        | Raise e =>
            stringWidth E nm "Poppins-Bold" 25 = Raise e
            ∨ stringWidth E nm "Helvetica-Bold" 25 = Raise e
            ∨ save E (path_join (GENERATED_DIR E) (certificate_filename nm))
              = Raise e
        end
    end.
Proof.
  intros out. unfold out, send_certificate_endpoint, bind, get_index,
    raise, ret.
  destruct (EMAIL_TO_NAME s !! normalize raw) as [nm|] eqn:Hnm; simpl;
    [|done].
  destruct nm as [|c nm]; simpl; [done|].
  destruct (create_certificate E (String c nm) s) as [[p|e] s'] eqn:H;
    apply create_certificate_frame in H as (Hi & Hc & Hr); simpl.
  - destruct Hr as (-> & doc & Hf).
    split; [done|]. split; [done|].
    rewrite join_generated_dir by done.
    split; [done|]. simpl.
    rewrite <-(join_generated_dir E (certificate_filename (String c nm)))
      by done.
    rewrite Hf, lookup_insert_eq. by eexists.
  - destruct Hr as [_ Hr]. split; [done|]. split; [done|]. exact Hr.
Qed.

(** X12.  [send_certificate_endpoint] raises 404 when the normalised
    address has no roster name or an empty one, and then changes nothing.
    Otherwise it renders the certificate: if that succeeds, it answers
    ["sending"] and queues one mail task addressed to the normalised
    address with the rendered file; if the measurement or the save raises,
    that exception is raised unchanged.  The relay is never called by the
    endpoint itself. *)
Theorem send_certificate_outcomes (E : env) (raw : string) (s : state) :
  let out := send_certificate_endpoint E raw s in
  EMAIL_TO_NAME out.2 = EMAIL_TO_NAME s
  ∧ smtp_calls out.2 = smtp_calls s
  ∧ match EMAIL_TO_NAME s !! normalize raw with
    | None | Some EmptyString =>
        out = (Raise (HTTPException 404 "Not Found"), s)
    | Some nm =>
        match out.1 with
        | Ok r =>
            r = ("sending",
                 (normalize raw,
                  GENERATED_DIR E +:+ "/" +:+ certificate_filename nm))
            ∧ is_Some (files out.2 !! r.2.2)
        | Raise e =>
            stringWidth E nm "Poppins-Bold" 25 = Raise e
            ∨ stringWidth E nm "Helvetica-Bold" 25 = Raise e
            ∨ save E (path_join (GENERATED_DIR E) (certificate_filename nm))
              = Raise e
        end
    end.
Proof. apply send_outcomes. Qed.

(** X13.  An address whose roster name is empty is valid for
    [verify_email], which answers with the empty name, yet gets no
    certificate: [send_certificate_endpoint] raises 404 and
    [generate_certificate_endpoint] raises 500 for it. *)
Theorem empty_name_valid_but_no_certificate (E : env) (raw : string)
  (s : state) :
  EMAIL_TO_NAME s !! normalize raw = Some EmptyString →
  (∃ b s', verify_email E raw s =
           (Ok {| valid := true; name := EmptyString; has_submitted := b |},
            s'))
  ∧ send_certificate_endpoint E raw s
    = (Raise (HTTPException 404 "Not Found"), s)
  ∧ (generate_certificate_endpoint E raw s).1
    = Raise (HTTPException 500 "404: Name not found").
Proof.
  intros H. split; [|split].
  - pose proof (verify_email_lookup E raw s) as Hv. by rewrite H in Hv.
  - pose proof (send_outcomes E raw s) as (_ & _ & Hs). by rewrite H in Hs.
  - unfold generate_certificate_endpoint, try_except, bind, get_index.
    by rewrite H.
Qed.

Lemma empty_name_valid_but_no_certificate_witness :
  (∃ b s', verify_email Sample.plain " A@X.com " Scenario.blank_name =
           (Ok {| valid := true; name := EmptyString; has_submitted := b |},
            s'))
  ∧ send_certificate_endpoint Sample.plain " A@X.com " Scenario.blank_name
    = (Raise (HTTPException 404 "Not Found"), Scenario.blank_name)
  ∧ (generate_certificate_endpoint Sample.plain " A@X.com "
       Scenario.blank_name).1
    = Raise (HTTPException 500 "404: Name not found").
Proof.
  apply (empty_name_valid_but_no_certificate Sample.plain " A@X.com "
           Scenario.blank_name).
  reflexivity.
Defined.

(** ** Mail dispatch with credentials *)

Lemma send_email_with_credentials (E : env) (recipient pdf_path : string)
  (s : state) (user pw : string) :
  getenv E "SMTP_USER" = Some user → user ≠ EmptyString →
  getenv E "SMTP_PASSWORD" = Some pw → pw ≠ EmptyString →
  match files s !! pdf_path with
  | Some doc =>
      let call :=
        {| smtp_msg :=
             {| msg_from := user; msg_to := recipient;
                msg_subject := "Your Certificate - Valli Hospital";
                msg_body :=
                  "Thank you for your feedback! Here is your certificate.";
                att_subtype := "pdf";
                att_filename := basename pdf_path;
                att_content := doc |};
           hostname := getenv E "SMTP_HOST"; port := 587;
           username := user; password := pw; start_tls := true |} in
      ∃ s', send_email_async E recipient pdf_path s = (Ok tt, s')
            ∧ smtp_calls s' = (smtp_calls s ++ [call])%list
            ∧ files s' = files s
            ∧ EMAIL_TO_NAME s' = EMAIL_TO_NAME s
            ∧ log s' =
                (log s ++
                 match smtp_send E call with
                 | Ok _ => []
                 | Raise e => [(ERROR, "Email error: " +:+ str_exn e)]
                 end)%list
  | None =>
      send_email_async E recipient pdf_path s =
        (Raise (Exception ("No such file or directory: " +:+ pdf_path)), s)
  end.
Proof.
  intros Hu Hune Hp Hpne.
  unfold send_email_async, read_file, bind, try_except, record_smtp, lift,
    logger.
  rewrite Hu, Hp. simpl.
  destruct user as [|??]; [done|]. destruct pw as [|??]; [done|]. simpl.
  destruct (files s !! pdf_path) as [doc|]; [|done].
  simpl. destruct (smtp_send E _) as [[]|e]; eexists;
    (split; [reflexivity|]); simpl; rewrite ?app_nil_r; done.
Qed.

(** C7, as stated, fails when of the three settings only the host is
    absent: the user and the password being set, the message is built and
    handed to the relay, with no host name. *)
Lemma send_email_without_host_calls_relay :
  getenv Scenario.mailing_without_host "SMTP_HOST" = None
  ∧ ∃ s' call,
      send_email_async Scenario.mailing_without_host "alice@x.com"
        "/srv/app/generated/certificate_Alice_Two.pdf" Scenario.rendered
      = (Ok tt, s')
      ∧ smtp_calls s' = [call]
      ∧ hostname call = None
      ∧ log s' = log Scenario.rendered.
Proof.
  split; [reflexivity|]. vm_compute.
  eexists _, _. split; [reflexivity|]. split; [reflexivity|].
  split; reflexivity.
Qed.

(** C7, amended.  [send_email_async] is a silent no-op, returning normally
    with one warning added to the log and nothing else changed, in
    particular without a call to the mail relay, exactly when the mail
    user or the mail password is absent from the configuration (unset or
    empty).  The mail host is not part of the test. *)
Theorem send_email_noop_iff_user_or_password_absent (E : env)
  (recipient pdf_path : string) (s : state) :
  send_email_async E recipient pdf_path s =
    (Ok tt,
     {| EMAIL_TO_NAME := EMAIL_TO_NAME s;
        log := log s ++ [(WARNING, "No SMTP credentials")];
        files := files s;
        smtp_calls := smtp_calls s |})
  ↔ (getenv E "SMTP_USER" = None ∨ getenv E "SMTP_USER" = Some EmptyString)
    ∨ (getenv E "SMTP_PASSWORD" = None
       ∨ getenv E "SMTP_PASSWORD" = Some EmptyString).
Proof.
  destruct (getenv E "SMTP_USER") as [[|c user]|] eqn:Hu;
    try (split; [by auto|]; intros _; unfold send_email_async;
         rewrite Hu; reflexivity).
  destruct (getenv E "SMTP_PASSWORD") as [[|c' pw]|] eqn:Hp;
    try (split; [by auto|]; intros _; unfold send_email_async;
         rewrite Hu, Hp; reflexivity).
  split; [|by intros [[?|?]|[?|?]]].
  intros H.
  pose proof (send_email_with_credentials E recipient pdf_path s
                (String c user) (String c' pw) Hu ltac:(done) Hp ltac:(done))
    as Hc.
  destruct (files s !! pdf_path) as [doc|].
  - destruct Hc as (s' & Hs & Hcalls & _). rewrite H in Hs.
    injection Hs as <-. simpl in Hcalls.
    apply (f_equal length) in Hcalls. rewrite length_app in Hcalls.
    simpl in Hcalls. lia.
  - rewrite H in Hc. discriminate Hc.
Qed.

(** X14.  With mail credentials set and the file present,
    [send_email_async] never raises, whether the relay accepts the message
    or not: it makes exactly one relay call, on port 587 with STARTTLS, to
    the recipient, from the configured user, attaching the file under its
    base name; a relay failure only adds one error line to the log. *)
Theorem send_email_delivers_or_logs (E : env) (recipient pdf_path : string)
  (s : state) (user pw : string) (doc : document) :
  getenv E "SMTP_USER" = Some user → user ≠ EmptyString →
  getenv E "SMTP_PASSWORD" = Some pw → pw ≠ EmptyString →
  files s !! pdf_path = Some doc →
  let call :=
    {| smtp_msg :=
         {| msg_from := user; msg_to := recipient;
            msg_subject := "Your Certificate - Valli Hospital";
            msg_body :=
              "Thank you for your feedback! Here is your certificate.";
            att_subtype := "pdf";
            att_filename := basename pdf_path;
            att_content := doc |};
       hostname := getenv E "SMTP_HOST"; port := 587;
       username := user; password := pw; start_tls := true |} in
  ∃ s', send_email_async E recipient pdf_path s = (Ok tt, s')
        ∧ smtp_calls s' = (smtp_calls s ++ [call])%list
        ∧ files s' = files s
        ∧ EMAIL_TO_NAME s' = EMAIL_TO_NAME s
        ∧ log s' =
            (log s ++
             match smtp_send E call with
             | Ok _ => []
             | Raise e => [(ERROR, "Email error: " +:+ str_exn e)]
             end)%list.
Proof.
  intros Hu Hune Hp Hpne Hdoc.
  pose proof (send_email_with_credentials E recipient pdf_path s user pw
                Hu Hune Hp Hpne) as H.
  by rewrite Hdoc in H.
Qed.

(** X15.  With mail credentials set but no file at the given path,
    [send_email_async] raises: reading the attachment is outside the
    handler that swallows relay failures.  Nothing is sent or logged. *)
Theorem send_email_missing_file_raises (E : env)
  (recipient pdf_path : string) (s : state) (user pw : string) :
  getenv E "SMTP_USER" = Some user → user ≠ EmptyString →
  getenv E "SMTP_PASSWORD" = Some pw → pw ≠ EmptyString →
  files s !! pdf_path = None →
  send_email_async E recipient pdf_path s =
    (Raise (Exception ("No such file or directory: " +:+ pdf_path)), s).
Proof.
  intros Hu Hune Hp Hpne Hdoc.
  pose proof (send_email_with_credentials E recipient pdf_path s user pw
                Hu Hune Hp Hpne) as H.
  by rewrite Hdoc in H.
Qed.

Lemma send_email_missing_file_raises_witness :
  send_email_async Scenario.mailing "alice@x.com"
    "/srv/app/generated/certificate_Alice_Two.pdf" initial_state =
    (Raise (Exception
              ("No such file or directory: " +:+
               "/srv/app/generated/certificate_Alice_Two.pdf")),
     initial_state).
Proof.
  apply (send_email_missing_file_raises Scenario.mailing "alice@x.com"
           "/srv/app/generated/certificate_Alice_Two.pdf" initial_state
           "sender@example" "secret");
    (reflexivity || discriminate).
Defined.

Lemma send_email_delivers_or_logs_witness :
  ∃ s', send_email_async Scenario.mailing "alice@x.com"
          "/srv/app/generated/certificate_Alice_Two.pdf" Scenario.rendered
        = (Ok tt, s')
        ∧ length (smtp_calls s') = 1%nat
        ∧ log s' = log Scenario.rendered.
Proof.
  destruct (send_email_delivers_or_logs Scenario.mailing "alice@x.com"
              "/srv/app/generated/certificate_Alice_Two.pdf"
              Scenario.rendered "sender@example" "secret"
              (default {| pagesize := (0, 0)%Q; ops := [] |}
                 (files Scenario.rendered
                    !! "/srv/app/generated/certificate_Alice_Two.pdf")))
    as (s' & H & Hc & _ & _ & Hl);
    [reflexivity|discriminate|reflexivity|discriminate|reflexivity|].
  exists s'. split; [exact H|]. split.
  - rewrite Hc. reflexivity.
  - rewrite Hl. reflexivity.
Defined.

(** X16.  The mail task queued by a successful
    [send_certificate_endpoint] never fails on its attachment: run on the
    state the endpoint leaves, with credentials set, it returns normally
    after one relay call addressed to the normalised address and carrying
    the file just rendered, named [certificate_<name>.pdf] when the roster
    name holds no slash. *)
Theorem send_certificate_then_mail (E : env) (raw : string) (s : state)
  (r : string * (string * string)) (s1 : state) (user pw : string) :
  getenv E "SMTP_USER" = Some user → user ≠ EmptyString →
  getenv E "SMTP_PASSWORD" = Some pw → pw ≠ EmptyString →
  send_certificate_endpoint E raw s = (Ok r, s1) →
  ∃ s2 call,
    send_email_async E r.2.1 r.2.2 s1 = (Ok tt, s2)
    ∧ smtp_calls s2 = (smtp_calls s ++ [call])%list
    ∧ msg_to (smtp_msg call) = normalize raw
    ∧ files s1 !! r.2.2 = Some (att_content (smtp_msg call))
    ∧ (∀ nm, EMAIL_TO_NAME s !! normalize raw = Some nm →
             PyStr.contains "/" nm = false →
             att_filename (smtp_msg call) = certificate_filename nm).
Proof.
  intros Hu Hune Hp Hpne H.
  pose proof (send_outcomes E raw s) as (_ & Hc & Hm).
  rewrite H in Hc, Hm. simpl in Hc, Hm.
  destruct (EMAIL_TO_NAME s !! normalize raw) as [[|c nm]|] eqn:Hnm;
    try discriminate Hm.
  destruct Hm as [-> [doc Hdoc]]. simpl in *.
  pose proof (send_email_with_credentials E (normalize raw)
                (GENERATED_DIR E +:+ "/" +:+
                 certificate_filename (String c nm)) s1 user pw
                Hu Hune Hp Hpne) as Hs.
  rewrite Hdoc in Hs. destruct Hs as (s2 & Hs & Hcalls & _).
  eexists s2, _. split; [exact Hs|]. rewrite Hcalls, Hc.
  split; [reflexivity|]. split; [reflexivity|]. split; [exact Hdoc|].
  intros nm' [= <-] Hslash. simpl.
  apply basename_after_slash.
  destruct (PyStr.contains "/" (certificate_filename (String c nm))) eqn:Hcf;
    [|done].
  apply certificate_filename_shape_slash in Hcf. congruence.
Qed.

Lemma send_certificate_then_mail_witness :
  ∃ s2 call,
    send_email_async Scenario.mailing "alice@x.com"
      "/srv/app/generated/certificate_Alice_Two.pdf"
      (send_certificate_endpoint Scenario.mailing " Alice@X.com "
         Scenario.loaded).2
    = (Ok tt, s2)
    ∧ smtp_calls s2 = (smtp_calls Scenario.loaded ++ [call])%list
    ∧ msg_to (smtp_msg call) = normalize " Alice@X.com "
    ∧ files (send_certificate_endpoint Scenario.mailing " Alice@X.com "
               Scenario.loaded).2
        !! "/srv/app/generated/certificate_Alice_Two.pdf"
      = Some (att_content (smtp_msg call))
    ∧ (∀ nm, EMAIL_TO_NAME Scenario.loaded !! normalize " Alice@X.com "
             = Some nm →
             PyStr.contains "/" nm = false →
             att_filename (smtp_msg call) = certificate_filename nm).
Proof.
  apply (send_certificate_then_mail Scenario.mailing " Alice@X.com "
           Scenario.loaded
           ("sending",
            ("alice@x.com", "/srv/app/generated/certificate_Alice_Two.pdf"))
           _ "sender@example" "secret");
    (reflexivity || discriminate).
Defined.

(** ** The duplicate check of [verify_email] *)

(** X17.  For an address in the roster, [verify_email] always answers
    valid with the roster name, and changes nothing but the log.  It
    reports a prior submission exactly when the store is configured and
    answers the query with status 200 and at least one row; when the query
    raises, the answer is still valid, with no prior submission, and one
    error line is logged. *)
Theorem verify_email_duplicate_check (E : env) (raw nm : string) (s : state) :
  EMAIL_TO_NAME s !! normalize raw = Some nm →
  let out := verify_email E raw s in
  ∃ b, out.1 = Ok {| valid := true; name := nm; has_submitted := b |}
    ∧ (b = true ↔
       store_configured E = true
       ∧ ∃ n, feedback_query E (normalize raw) = Ok (200, n) ∧ (0 < n)%nat)
    ∧ EMAIL_TO_NAME out.2 = EMAIL_TO_NAME s
    ∧ files out.2 = files s
    ∧ smtp_calls out.2 = smtp_calls s
    ∧ (∀ e, store_configured E = true →
            feedback_query E (normalize raw) = Raise e →
            b = false
            ∧ log out.2 =
                (log s ++ [(ERROR, "Supabase check failed: " +:+ str_exn e)])%list).
Proof.
  intros Hnm out. unfold out, verify_email, bind, get_index, try_except,
    lift, ret, logger.
  rewrite Hnm. destruct (store_configured E); simpl.
  - destruct (feedback_query E (normalize raw)) as [[st n]|e]; simpl.
    + eexists. split; [reflexivity|]. split; [|by auto].
      rewrite andb_true_iff, Z.eqb_eq, Nat.ltb_lt. split.
      * intros [-> Hn]. split; [done|]. by exists n.
      * intros [_ (n' & [= -> ->] & Hn)]. done.
    + eexists. split; [reflexivity|]. split.
      * split; [done|]. by intros [_ (n & [=] & _)].
      * split; [done|]. split; [done|]. split; [done|].
        intros e' _ [= <-]. done.
  - eexists. split; [reflexivity|]. split.
    + split; [done|]. by intros [[=] _].
    + split; [done|]. split; [done|]. split; [done|]. by intros e [=].
Qed.

Lemma verify_email_duplicate_check_witness :
  let out := verify_email Scenario.broken_assets " Alice@X.com "
               Scenario.loaded in
  ∃ b, out.1 = Ok {| valid := true; name := "Alice Two";
                     has_submitted := b |}
    ∧ (b = true ↔
       store_configured Scenario.broken_assets = true
       ∧ ∃ n, feedback_query Scenario.broken_assets
                (normalize " Alice@X.com ") = Ok (200, n) ∧ (0 < n)%nat)
    ∧ EMAIL_TO_NAME out.2 = EMAIL_TO_NAME Scenario.loaded
    ∧ files out.2 = files Scenario.loaded
    ∧ smtp_calls out.2 = smtp_calls Scenario.loaded
    ∧ (∀ e, store_configured Scenario.broken_assets = true →
            feedback_query Scenario.broken_assets
              (normalize " Alice@X.com ") = Raise e →
            b = false
            ∧ log out.2 =
                (log Scenario.loaded ++
                 [(ERROR, "Supabase check failed: " +:+ str_exn e)])%list).
Proof.
  apply (verify_email_duplicate_check Scenario.broken_assets " Alice@X.com "
           "Alice Two" Scenario.loaded).
  reflexivity.
Defined.

(** ** The feedback store *)

(** X18.  When the store is configured and answers 200,
    [get_all_feedback] returns the records in the order received, one
    entry per record, and leaves the state as it is; every record that
    carries an email gets a name: the roster name of the normalised email
    if there is one, else the email as stored. *)
Theorem get_all_feedback_enriches (E : env) (s : state) (text : string)
  (data : list item) :
  store_configured E = true →
  feedback_all E = Ok (200, text, data) →
  ∃ l, get_all_feedback E s = (Ok l, s)
    ∧ map fst l = data
    ∧ ∀ it n em, (it, n) ∈ l → item_email it = Some em →
        n = Some (default em (EMAIL_TO_NAME s !! normalize em)).
Proof.
  intros Hcfg Hall.
  unfold get_all_feedback, bind, lift, get_index, ret.
  rewrite Hcfg, Hall. simpl. eexists. split; [reflexivity|]. split.
  - rewrite map_map. simpl. apply map_id.
  - intros it n em Hin Hem.
    apply list_elem_of_In, in_map_iff in Hin as (it' & [= -> <-] & _).
    rewrite Hem. simpl.
    by destruct (EMAIL_TO_NAME s !! normalize em).
Qed.

Lemma get_all_feedback_enriches_witness :
  ∃ l, get_all_feedback Scenario.stored Scenario.loaded
       = (Ok l, Scenario.loaded)
    ∧ map fst l = Sample.rated [5; 5; 4; 3; 5]
    ∧ ∀ it n em, (it, n) ∈ l → item_email it = Some em →
        n = Some (default em (EMAIL_TO_NAME Scenario.loaded !! normalize em)).
Proof.
  apply (get_all_feedback_enriches Scenario.stored Scenario.loaded "[]");
    reflexivity.
Defined.

(** X19.  Without the store configured, every store-backed endpoint
    raises 500 at once, changing nothing and calling nothing, while
    [verify_email] still validates a roster address and reports no prior
    submission. *)
Theorem store_unconfigured (E : env) (A : store_api) (s : state) :
  store_configured E = false →
  get_all_feedback E s = (Raise (HTTPException 500 "DB not configured"), s)
  ∧ get_admin_stats E s = (Raise (HTTPException 500 "DB not configured"), s)
  ∧ (∀ d, submit_feedback E A d s
          = (Raise (HTTPException 500 "Database not configured"), s))
  ∧ (∀ em, delete_feedback E A em s
           = (Raise (HTTPException 500 "DB not configured"), s))
  ∧ (∀ raw nm, EMAIL_TO_NAME s !! normalize raw = Some nm →
       verify_email E raw s
       = (Ok {| valid := true; name := nm; has_submitted := false |}, s)).
Proof.
  intros Hcfg.
  unfold get_admin_stats, get_all_feedback, submit_feedback, delete_feedback,
    verify_email, bind, get_index.
  rewrite Hcfg. simpl. repeat split.
  intros raw nm ->. reflexivity.
Qed.

Lemma store_unconfigured_witness :
  get_all_feedback Sample.plain Scenario.loaded
  = (Raise (HTTPException 500 "DB not configured"), Scenario.loaded)
  ∧ get_admin_stats Sample.plain Scenario.loaded
    = (Raise (HTTPException 500 "DB not configured"), Scenario.loaded)
  ∧ (∀ d, submit_feedback Sample.plain Scenario.accepting d Scenario.loaded
          = (Raise (HTTPException 500 "Database not configured"),
             Scenario.loaded))
  ∧ (∀ em, delete_feedback Sample.plain Scenario.accepting em Scenario.loaded
           = (Raise (HTTPException 500 "DB not configured"),
              Scenario.loaded))
  ∧ (∀ raw nm, EMAIL_TO_NAME Scenario.loaded !! normalize raw = Some nm →
       verify_email Sample.plain raw Scenario.loaded
       = (Ok {| valid := true; name := nm; has_submitted := false |},
          Scenario.loaded)).
Proof.
  apply (store_unconfigured Sample.plain Scenario.accepting Scenario.loaded).
  reflexivity.
Defined.

(** X20.  [submit_feedback] forwards the email and the rating exactly as
    submitted (the email is not normalised) and succeeds only if the store
    answers with a status below 400, then logging nothing.  Every failure is
    raised with status 500; a rejection by the store (status 400 or more)
    is logged twice and raised with the body text prefixed by ["500: "].
    The roster, the generated files and the mail relay are never touched. *)
Theorem submit_feedback_outcomes (E : env) (A : store_api)
  (d : FeedbackRequest) (s : state) :
  let out := submit_feedback E A d s in
  let url := SUPABASE_URL E +:+ "/rest/v1/feedback" in
  let body := {| p_email := fr_email d; p_rating := fr_rating d;
                 q1_relevance := fr_q1 d; q2_confidence := fr_q2 d;
                 q3_instructor := fr_q3 d; q4_duration := fr_q4 d;
                 q5_satisfaction := fr_q5 d |} in
  EMAIL_TO_NAME out.2 = EMAIL_TO_NAME s
  ∧ files out.2 = files s
  ∧ smtp_calls out.2 = smtp_calls s
  ∧ match out.1 with
    | Ok v => v = "success" ∧ store_configured E = true ∧ log out.2 = log s
              ∧ ∃ status text, post A url body = Ok (status, text)
                               ∧ status < 400
    | Raise e => ∃ detail, e = HTTPException 500 detail
    end
  ∧ (∀ status text,
       store_configured E = true → post A url body = Ok (status, text) →
       400 ≤ status →
       out.1 = Raise (HTTPException 500 ("500: " +:+ text))
       ∧ log out.2 =
           (log s ++ [(ERROR, "Supabase error: " +:+ text);
                      (ERROR, "Request error: 500: " +:+ text)])%list).
Proof.
  intros out url body.
  unfold out, submit_feedback, try_except, bind, lift, logger, raise, ret.
  fold url. fold body.
  destruct (store_configured E); simpl.
  2: { do 3 (split; [done|]). split; [by eexists|]. intros; discriminate. }
  destruct (post A url body) as [[status text]|e]; simpl.
  - destruct (400 <=? status) eqn:Hst; simpl.
    + do 3 (split; [done|]). split; [by eexists|].
      intros st tx _ [= <- <-] _. split; [reflexivity|].
      by rewrite <-app_assoc.
    + apply Z.leb_gt in Hst. do 3 (split; [done|]). split.
      * split; [done|]. split; [done|]. split; [done|].
        by exists status, text.
      * intros st tx _ [= <- <-] ?. lia.
  - do 3 (split; [done|]). split; [by eexists|]. intros; discriminate.
Qed.

(** X21.  [delete_feedback] never changes the process state, whatever
    its outcome.  It answers ["deleted"] only if the store is configured and
    answers the request for the address as given with a status below 400;
    it raises 500 with the body text when the store answers 400 or more,
    and an exception of the transport is raised unchanged. *)
Theorem delete_feedback_outcomes (E : env) (A : store_api) (email : string)
  (s : state) :
  let out := delete_feedback E A email s in
  let url := SUPABASE_URL E +:+ "/rest/v1/feedback?email=eq." +:+ email in
  out.2 = s
  ∧ match out.1 with
    | Ok v => v = "deleted" ∧ store_configured E = true
              ∧ ∃ status text, delete_ A url = Ok (status, text)
                               ∧ status < 400
    | Raise e =>
        (store_configured E = false
         ∧ e = HTTPException 500 "DB not configured")
        ∨ (store_configured E = true
           ∧ ((∃ status text, delete_ A url = Ok (status, text)
                              ∧ 400 ≤ status
                              ∧ e = HTTPException 500 text)
              ∨ delete_ A url = Raise e))
    end.
Proof.
  intros out url.
  unfold out, delete_feedback, bind, lift, raise, ret. fold url.
  destruct (store_configured E); simpl; [|by auto].
  destruct (delete_ A url) as [[status text]|e]; simpl; [|by auto].
  destruct (400 <=? status) eqn:Hst; simpl.
  - apply Z.leb_le in Hst. split; [done|]. right. split; [done|]. left.
    by exists status, text.
  - apply Z.leb_gt in Hst. split; [done|]. split; [done|]. split; [done|].
    by exists status, text.
Qed.
